(** * make_api_rst: subgroup extraction and RST tree emission

    A shallow embedding of [rst/make_api_rst.py].  Python strings are
    modelled as [string] (for UTF-8 text the three operations the script
    uses, slicing the first three characters, replacing the ASCII literal
    ['Qgs'] and matching [^[A-Z][a-z]*], act the same on bytes as on code
    points).  Exceptions are modelled by the error monad [py]; the
    [OrderedDict] by an association list in insertion order; the file
    system by a finite map from path names to nodes. *)

From Stdlib Require Import Ascii String.
From stdpp Require Import base option list strings gmap fin_maps.

(** ** Exceptions *)

Inductive exn : Set :=
  | AttributeError
  | KeyError
  | ValueError
  | FileExistsError
  | FileNotFoundError
  | NotADirectoryError
  | IsADirectoryError.

Inductive py (A : Type) : Type :=
  | Ok (a : A)
  | Raise (e : exn).
Arguments Ok {A} a.
Arguments Raise {A} e.

#[global] Instance py_ret : MRet py := fun A a => Ok a.
#[global] Instance py_bind : MBind py := fun A B f m =>
  match m with
  | Ok a => f a
  | Raise e => Raise e
  end.

(** [for x in l: body], threading the loop state through the body. *)
Fixpoint for_each {A S : Type} (body : A -> S -> py S) (l : list A) (s : S)
  : py S :=
  match l with
  | [] => Ok s
  | x :: l' => s' ← body x s; for_each body l' s'
  end.

(** ** Strings *)

Module Str.

Definition nl : string := String "010"%char "".

Definition is_upper (c : ascii) : bool :=
  (65 <=? nat_of_ascii c) && (nat_of_ascii c <=? 90).

Definition is_lower (c : ascii) : bool :=
  (97 <=? nat_of_ascii c) && (nat_of_ascii c <=? 122).

(** [s.startswith(p)] *)
Definition startswith (s p : string) : bool := String.prefix p s.

(** [s[0:n]], which truncates when [s] is shorter than [n]. *)
Definition slice_to (n : nat) (s : string) : string := substring 0 n s.

(** [s.replace(old, new)] for a non-empty [old]: the occurrences of [old]
    are replaced from left to right and do not overlap.  [skip] counts the
    characters of the occurrence being replaced that are still to be
    dropped. *)
Fixpoint replace_from (old new : string) (skip : nat) (s : string)
  : string :=
  match s with
  | EmptyString => EmptyString
  | String c s' =>
      match skip with
      | S k => replace_from old new k s'
      | O =>
          if String.prefix old s
          then new +:+ replace_from old new (String.length old - 1) s'
          else String c (replace_from old new 0 s')
      end
  end.

Definition replace (old new s : string) : string :=
  replace_from old new 0 s.

(** The longest run of lower-case letters at the start of [s]: what the
    greedy [[a-z]*] consumes. *)
Fixpoint lower_run (s : string) : string :=
  match s with
  | String c s' => if is_lower c then String c (lower_run s') else ""
  | EmptyString => ""
  end.

(** [re.search('^[A-Z][a-z]*', s)]: [None] when there is no match,
    otherwise the matched text (what [.group(0)] returns). *)
Definition re_search_word (s : string) : option string :=
  match s with
  | String c s' =>
      if is_upper c then Some (String c (lower_run s')) else None
  | EmptyString => None
  end.

End Str.

(** ** Module-level configuration *)

Definition limit : bool := false.
Definition class_limit : string := "QgsAdvancedDigitizingCanvasItem".

(** ** current_subgroup *)

(** [m.group(0)] on the result of [re.search]: calling it on [None] raises
    [AttributeError]. *)
Definition group0 (m : option string) : py string :=
  match m with
  | Some w => Ok w
  | None => Raise AttributeError
  end.

Definition current_subgroup (class_name : string) : py (option string) :=
  let stripped_prefix := Str.replace "Qgs" "" class_name in
  match group0 (Str.re_search_word stripped_prefix) with
  | Ok first_word => Ok (Some first_word)
  | Raise AttributeError => Ok None
  | Raise e => Raise e
  end.

(** ** OrderedDict *)

Module OD.

Abbreviation t := (list (string * list string)).

Definition empty : t := [].

(** [d.keys()] *)
Definition keys (d : t) : list string := d.*1.

(** [d[k] = v]: an existing key keeps its position, a new key goes last. *)
Fixpoint set (k : string) (v : list string) (d : t) : t :=
  match d with
  | [] => [(k, v)]
  | (k', v') :: d' =>
      if decide (k' = k) then (k, v) :: d' else (k', v') :: set k v d'
  end.

(** [d[k].append(x)]: [KeyError] when [k] is not a key. *)
Fixpoint append (k : string) (x : string) (d : t) : py t :=
  match d with
  | [] => Raise KeyError
  | (k', v') :: d' =>
      if decide (k' = k) then Ok ((k', v' ++ [x]) :: d')
      else d'' ← append k x d'; Ok ((k', v') :: d'')
  end.

End OD.

(** ** extract_package_subgroups *)

(** The variables of the first loop. *)
Record scan : Type := Scan {
  candidates : list string;
  subgroups : list string;
  result : OD.t
}.

Definition discover (class_name : string) (st : scan) : py scan :=
  if limit && negb (Str.startswith class_name class_limit) then Ok st
  else
    let prefix := Str.slice_to 3 class_name in
    if decide (prefix ≠ "Qgs") then Ok st
    else
      subgroup ← current_subgroup class_name;
      match subgroup with
      | None => Ok st
      | Some subgroup =>
          if decide (subgroup ∉ candidates st) then
            Ok (Scan (candidates st ++ [subgroup]) (subgroups st) (result st))
          else if decide (subgroup ∉ subgroups st) then
            Ok (Scan (candidates st) (subgroups st ++ [subgroup])
                     (OD.set subgroup [] (result st)))
          else Ok st
      end.

Definition assign (class_name : string) (result : OD.t) : py OD.t :=
  if limit && negb (Str.startswith class_name class_limit) then Ok result
  else
    let prefix := Str.slice_to 3 class_name in
    if decide (prefix ≠ "Qgs") then Ok result
    else
      subgroup ← current_subgroup class_name;
      match subgroup with
      | None => Ok result
      | Some subgroup =>
          if decide (subgroup ∈ OD.keys result)
          then OD.append subgroup class_name result
          else OD.append "other" class_name result
      end.

(** [classes] stands for [dir(package)]. *)
Definition extract_package_subgroups (classes : list string) : py OD.t :=
  st ← for_each discover classes (Scan [] [] OD.empty);
  let subgroups := subgroups st ++ ["other"] in
  let result := OD.set "other" [] (result st) in
  for_each assign classes result.

(** ** File system *)

(** A file system maps path names to nodes.  The script only uses relative
    paths without [.] or [..] components, so a path name identifies a node.
    A file handle is identified with the path it was opened on: the script
    never removes or reopens a path while a handle on it is still open. *)
Inductive node : Type :=
  | Dir
  | File (content : string).

#[global] Instance node_eq_dec : EqDecision node.
Proof. solve_decision. Defined.

Module FS.

Abbreviation t := (gmap string node).

(** [p] lies strictly below the directory [d]. *)
Definition under (d p : string) : bool := String.prefix (d +:+ "/") p.

(** The text before the last [/] of [p]; [None] when [p] has no [/] and so
    names an entry of the working directory. *)
Fixpoint parent (p : string) : option string :=
  match p with
  | EmptyString => None
  | String c p' =>
      match parent p' with
      | Some d => Some (String c d)
      | None => if Ascii.eqb c "/" then Some "" else None
      end
  end.

(** The directory that is to hold [p] must exist. *)
Definition check_parent (p : string) (fs : t) : py unit :=
  match parent p with
  | None => Ok ()
  | Some d =>
      match fs !! d with
      | Some Dir => Ok ()
      | Some (File _) => Raise NotADirectoryError
      | None => Raise FileNotFoundError
      end
  end.

(** [rmtree(p, ignore_errors=True)]: removes the directory [p] with all
    that lies below it; on a missing path or a regular file the error is
    ignored and nothing changes. *)
Definition rmtree (p : string) (fs : t) : t :=
  match fs !! p with
  | Some Dir => filter (fun kv => kv.1 <> p /\ under p kv.1 = false) fs
  | _ => fs
  end.

(** [mkdir(p)] *)
Definition mkdir (p : string) (fs : t) : py t :=
  _ ← check_parent p fs;
  match fs !! p with
  | Some _ => Raise FileExistsError
  | None => Ok (<[p := Dir]> fs)
  end.

(** [open(p, 'w')]: creates the file or truncates it. *)
Definition open_w (p : string) (fs : t) : py t :=
  _ ← check_parent p fs;
  match fs !! p with
  | Some Dir => Raise IsADirectoryError
  | _ => Ok (<[p := File ""]> fs)
  end.

(** [f.write(text)] on the handle opened on [p]. *)
Definition write (p : string) (text : string) (fs : t) : py t :=
  match fs !! p with
  | Some (File content) => Ok (<[p := File (content +:+ text)]> fs)
  | _ => Raise ValueError
  end.

(** [open(p, 'r').read()] *)
Definition read (p : string) (fs : t) : py string :=
  match fs !! p with
  | Some (File content) => Ok content
  | Some Dir => Raise IsADirectoryError
  | None => Raise FileNotFoundError
  end.

End FS.

(** ** generate_docs *)

Definition document_header : string := "
:tocdepth: 1

Welcome to the QGIS Python API documentation project!
==============================================================

.. toctree::
   :maxdepth: 1
   :caption: Contents:

".

Definition document_footer : string := "
Indices and tables
==================

* :ref:`genindex`
* :ref:`modindex`
* :ref:`search`".

Definition package_header : string := "

PACKAGENAME
===================================

.. toctree::
   :maxdepth: 2
   :caption: PACKAGENAME:

".

Definition sub_group_header : string := "
SUBGROUPNAME
-----------------------------------

.. toctree::
   :maxdepth: 1
   :caption: SUBGROUPNAME:

".

Section Emitter.

(** What [dir(core)], [dir(gui)] and [dir(analysis)] list: the [qgis]
    packages are not part of the script. *)
Variables dir_core dir_gui dir_analysis : list string.

(** [Template(template_text).substitute(PACKAGE=.., SUBGROUP=.., CLASS=..)]
    of the Python library: it may raise on a malformed template or an
    unknown placeholder. *)
Variable substitute : string -> string -> string -> string -> py string.

Definition packages : list (string * list string) :=
  if negb limit
  then [("core", dir_core); ("gui", dir_gui); ("analysis", dir_analysis)]
  else [("gui", dir_gui)].

Definition package_dir (package_name : string) : string :=
  "api/" +:+ package_name.

Definition subgroup_dir (package_name package_subgroup : string) : string :=
  "api/" +:+ package_name +:+ "/" +:+ package_subgroup.

Definition index_of (dir : string) : string := dir +:+ "/index.rst".

Definition class_path (package_name package_subgroup class_name : string)
  : string :=
  "api/" +:+ package_name +:+ "/" +:+ package_subgroup +:+ "/"
  +:+ class_name +:+ ".rst".

(** The body of the innermost loop after its prefix guard. *)
Definition write_class (template_text package_name package_subgroup : string)
    (class_name : string) (fs : FS.t) : py FS.t :=
  class_template ←
    substitute template_text package_name package_subgroup class_name;
  let class_rst := class_path package_name package_subgroup class_name in
  fs ← FS.open_w class_rst fs;
  fs ← FS.write class_rst (class_template +:+ Str.nl) fs;
  FS.write (index_of (subgroup_dir package_name package_subgroup))
           ("   " +:+ class_name +:+ Str.nl) fs.

Definition emit_class (template_text package_name package_subgroup : string)
    (class_name : string) (fs : FS.t) : py FS.t :=
  let prefix := Str.slice_to 3 class_name in
  if decide (prefix <> "Qgs") then Ok fs
  else write_class template_text package_name package_subgroup class_name fs.

Definition emit_subgroup (template_text package_name : string)
    (entry : string * list string) (fs : FS.t) : py FS.t :=
  let '(package_subgroup, classes) := entry in
  fs ← FS.write (index_of (package_dir package_name))
                ("   " +:+ package_subgroup +:+ "/index" +:+ Str.nl) fs;
  fs ← FS.mkdir (subgroup_dir package_name package_subgroup) fs;
  let subgroup_index := index_of (subgroup_dir package_name package_subgroup) in
  fs ← FS.open_w subgroup_index fs;
  fs ← FS.write subgroup_index
         (Str.replace "SUBGROUPNAME" package_subgroup sub_group_header) fs;
  for_each (emit_class template_text package_name package_subgroup) classes fs.

Definition emit_package (template_text : string)
    (entry : string * list string) (fs : FS.t) : py FS.t :=
  let '(package_name, package) := entry in
  package_subgroups ← extract_package_subgroups package;
  fs ← FS.mkdir (package_dir package_name) fs;
  fs ← FS.write "api/index.rst" ("   " +:+ package_name +:+ "/index" +:+ Str.nl) fs;
  let package_index := index_of (package_dir package_name) in
  fs ← FS.open_w package_index fs;
  fs ← FS.write package_index
         (Str.replace "PACKAGENAME" package_name package_header) fs;
  for_each (emit_subgroup template_text package_name) package_subgroups fs.

(** Everything after the output tree has been cleared and [api] created. *)
Definition populate (fs : FS.t) : py FS.t :=
  fs ← FS.open_w "api/index.rst" fs;
  fs ← FS.write "api/index.rst" document_header fs;
  template_text ← FS.read "rst/qgis_pydoc_template.txt" fs;
  fs ← for_each (emit_package template_text) packages fs;
  FS.write "api/index.rst" document_footer fs.

Definition generate_docs (fs : FS.t) : py FS.t :=
  let fs := FS.rmtree "build" fs in
  let fs := FS.rmtree "api" fs in
  fs ← FS.mkdir "api" fs;
  populate fs.

End Emitter.

(** ** Vocabulary of the statements *)

(** The subgroup token of an eligible identifier: [None] when the loops of
    [extract_package_subgroups] skip the identifier ([limit] being off, the
    loops skip on the prefix test and on a failed derivation only). *)
Definition token_of (class_name : string) : option string :=
  if decide (Str.slice_to 3 class_name = "Qgs") then
    match current_subgroup class_name with
    | Ok (Some subgroup) => Some subgroup
    | _ => None
    end
  else None.

(** The tokens of the eligible identifiers of a listing, in listing order. *)
Definition tokens (classes : list string) : list string :=
  omap token_of classes.

Definition occurrences (t : string) (ts : list string) : nat :=
  length (filter (fun x => x = t) ts).

(** What the first loop does with the token of an eligible identifier. *)
Definition note (st : scan) (t : string) : scan :=
  if decide (t ∉ candidates st) then
    Scan (candidates st ++ [t]) (subgroups st) (result st)
  else if decide (t ∉ subgroups st) then
    Scan (candidates st) (subgroups st ++ [t]) (OD.set t [] (result st))
  else st.

(** The key under which the second loop files an identifier when the keys
    of the mapping are [ks]. *)
Definition bucket (ks : list string) (class_name : string) : option string :=
  (fun t => if decide (t ∈ ks) then t else "other") <$> token_of class_name.

(** The mapping with keys [ks] in which every key holds the identifiers of
    the listing filed under it. *)
Definition filed (ks : list string) (classes : list string) : OD.t :=
  (fun k => (k, filter (fun c => bucket ks c = Some k) classes)) <$> ks.

(** The tokens the first loop has promoted to subgroups when it ends, in
    the order of their promotion. *)
Definition promoted (classes : list string) : list string :=
  subgroups (foldl note (Scan [] [] OD.empty) (tokens classes)).

(** The invariant of the first loop once the tokens [ts] have been seen. *)
Record discovered (ts : list string) (st : scan) : Prop := {
  disc_candidates : forall t, t ∈ candidates st <-> 1 <= occurrences t ts;
  disc_subgroups : forall t, t ∈ subgroups st <-> 2 <= occurrences t ts;
  disc_nodup : NoDup (subgroups st);
  disc_result : result st = (fun t => (t, [])) <$> subgroups st
}.

(** ** The token as the specification words it *)

Fixpoint drop_chars (n : nat) (s : string) : string :=
  match n, s with
  | S n', String _ s' => drop_chars n' s'
  | _, _ => s
  end.

(** "removing the prefix": the identifier without its first three
    characters. *)
Definition spec_strip_prefix (class_name : string) : string :=
  drop_chars 3 class_name.

Fixpoint all_lower (w : string) : bool :=
  match w with
  | EmptyString => true
  | String c w' => Str.is_lower c && all_lower w'
  end.

(** "one uppercase letter followed by zero or more lowercase letters" *)
Definition spec_word (w : string) : bool :=
  match w with
  | String c w' => Str.is_upper c && all_lower w'
  | EmptyString => false
  end.

(** The leading runs of [s], from the shortest to the longest. *)
Fixpoint leading_runs (s : string) : list string :=
  "" :: match s with
        | EmptyString => []
        | String c s' => String c <$> leading_runs s'
        end.

(** "the longest leading run matching the pattern", [None] when no leading
    run matches. *)
Definition spec_longest_word (s : string) : option string :=
  last (filter (fun w => spec_word w = true) (leading_runs s)).

Definition spec_token (class_name : string) : option string :=
  spec_longest_word (spec_strip_prefix class_name).

(** [old in s] *)
Fixpoint contains (old s : string) : bool :=
  String.prefix old s
  || match s with
     | EmptyString => false
     | String _ s' => contains old s'
     end.

(** ** Vocabulary of the emitter's statements *)

(** Nothing lies below [api] unless [api] is a directory: the instance at
    the output tree of the rule that an entry lives in a directory. *)
Definition api_rooted (fs : FS.t) : Prop :=
  forall p, FS.under "api" p = true -> is_Some (fs !! p) ->
            fs !! "api" = Some Dir.

(** [fs'] differs from [fs] at most below [api]. *)
Definition outside_api (fs fs' : FS.t) : Prop :=
  forall p, FS.under "api" p = false -> fs' !! p = fs !! p.

(** A stand-in for [Template.substitute], right for templates whose only
    dollar signs introduce the three placeholders. *)
Definition sample_substitute
    (template_text package_name package_subgroup class_name : string)
  : py string :=
  Ok (Str.replace "$CLASS" class_name
        (Str.replace "$SUBGROUP" package_subgroup
           (Str.replace "$PACKAGE" package_name template_text))).

(** A working directory that holds the template and no output tree yet. *)
Definition sample_fs : FS.t :=
  <["rst/qgis_pydoc_template.txt" := File "$PACKAGE.$SUBGROUP.$CLASS"]>
    (<["rst" := Dir]> ∅).

(** What [dir(core)] lists in the sample run. *)
Definition sample_core : list string :=
  ["QgsComposerItem"; "QgsComposerView"; "QgsRasterLayer"; "Foo"].

(** ** Vocabulary of the emitted tree *)

(** The entry [x] of the directory [d]. *)
Definition child (d x : string) : string := d +:+ "/" +:+ x.

(** [p] is the directory [d] or lies below it. *)
Definition within (d p : string) : Prop := p = d \/ FS.under d p = true.

Fixpoint slash_free (s : string) : bool :=
  match s with
  | EmptyString => true
  | String c s' => negb (Ascii.eqb c "/") && slash_free s'
  end.

(** The texts of a list one after the other. *)
Definition join (l : list string) : string := foldr String.append "" l.

(** The line that an index file holds for the sub-directory [name]. *)
Definition index_line (name : string) : string :=
  "   " +:+ name +:+ "/index" +:+ Str.nl.

(** The line that a subgroup index holds for the class [class_name]. *)
Definition class_line (class_name : string) : string :=
  "   " +:+ class_name +:+ Str.nl.

(** The directory of the subgroup [sub] of the package [pn] holds its index,
    which lists the classes of [classes] that start with ['Qgs'], and for
    each of these classes the rendered template. *)
Definition subgroup_emitted
    (substitute : string -> string -> string -> string -> py string)
    (template_text pn sub : string) (classes : list string) (fs : FS.t)
  : Prop :=
  fs !! subgroup_dir pn sub = Some Dir
  /\ fs !! index_of (subgroup_dir pn sub)
     = Some (File (Str.replace "SUBGROUPNAME" sub sub_group_header
                   +:+ join (class_line <$>
                       filter (fun c => Str.slice_to 3 c = "Qgs") classes)))
  /\ forall c, c ∈ classes -> Str.slice_to 3 c = "Qgs" ->
       exists text,
         substitute template_text pn sub c = Ok text
         /\ fs !! class_path pn sub c = Some (File (text +:+ Str.nl)).

(** The directory of the package [pn] holds its index, which lists the
    subgroups extracted from [listing], and the directory of each of them. *)
Definition package_emitted
    (substitute : string -> string -> string -> string -> py string)
    (template_text pn : string) (listing : list string) (fs : FS.t)
  : Prop :=
  exists res,
    extract_package_subgroups listing = Ok res
    /\ fs !! package_dir pn = Some Dir
    /\ fs !! index_of (package_dir pn)
       = Some (File (Str.replace "PACKAGENAME" pn package_header
                     +:+ join (index_line <$> OD.keys res)))
    /\ forall sub classes, (sub, classes) ∈ res ->
         subgroup_emitted substitute template_text pn sub classes fs.

(** The class [c] can be written: its name can be a file name and the
    template can be rendered for it. *)
Definition renders
    (substitute : string -> string -> string -> string -> py string)
    (template_text pn sub c : string) : Prop :=
  slash_free c = true
  /\ exists text, substitute template_text pn sub c = Ok text.

(** The template of the sample run. *)
Definition sample_template : string := "$PACKAGE.$SUBGROUP.$CLASS".

(** The file system that the sample run leaves. *)
Definition sample_result : FS.t :=
  match generate_docs sample_core [] [] sample_substitute sample_fs with
  | Ok fs => fs
  | Raise _ => sample_fs
  end.

(** A working directory that holds the template, an output tree with a
    file no run writes, and a build tree. *)
Definition stale_fs : FS.t :=
  <["api/old.rst" := File "stale"]>
    (<["api" := Dir]>
       (<["build/html" := Dir]> (<["build" := Dir]> sample_fs))).

(** The file system that the sample run leaves when started on
    [stale_fs]. *)
Definition stale_result : FS.t :=
  match generate_docs sample_core [] [] sample_substitute stale_fs with
  | Ok fs => fs
  | Raise _ => stale_fs
  end.

(** ** The extractor *)

Example replace_every_occurrence :
  Str.replace "Qgs" "" "QgsAQgsbQg" = "AbQg"
  /\ Str.replace "aa" "b" "aaa" = "ba"
  /\ Str.replace "PACKAGENAME" "core" "PACKAGENAME: PACKAGENAME"
     = "core: core".
Proof. by vm_compute. Qed.

Example re_search_word_samples :
  Str.re_search_word "ComposerItem" = Some "Composer"
  /\ Str.re_search_word "3DRenderer" = None
  /\ Str.re_search_word "GPSInformation" = Some "G"
  /\ Str.re_search_word "" = None.
Proof. by vm_compute. Qed.

Example current_subgroup_samples :
  current_subgroup "QgsComposerStyle" = Ok (Some "Composer")
  /\ current_subgroup "Qgs" = Ok None
  /\ current_subgroup "Qgs3DMapSettings" = Ok None.
Proof. by vm_compute. Qed.

Lemma current_subgroup_eq class_name :
  current_subgroup class_name
  = Ok (Str.re_search_word (Str.replace "Qgs" "" class_name)).
Proof.
  unfold current_subgroup.
  by destruct (Str.re_search_word _).
Qed.

Lemma token_of_sentinel c t :
  token_of c = Some t -> Str.slice_to 3 c = "Qgs".
Proof. unfold token_of. by case_decide. Qed.

Lemma token_of_upper c t :
  token_of c = Some t ->
  exists u r, t = String u r /\ Str.is_upper u = true.
Proof.
  unfold token_of. case_decide; [|done].
  rewrite current_subgroup_eq. unfold Str.re_search_word.
  destruct (Str.replace _ _ _) as [|u r]; [done|].
  destruct (Str.is_upper u) eqn:Hu; [|done].
  intros [= <-]. eauto.
Qed.

Lemma token_of_not_other c : token_of c ≠ Some "other".
Proof.
  intros H. apply token_of_upper in H as (u & r & [= <- _] & Hu).
  by vm_compute in Hu.
Qed.

Lemma discover_eq c st :
  discover c st = Ok (from_option (note st) st (token_of c)).
Proof.
  unfold discover, token_of, limit. cbn [andb].
  destruct (decide (Str.slice_to 3 c = "Qgs")) as [Hp|Hp].
  - destruct (decide (Str.slice_to 3 c ≠ "Qgs")) as [Hn|_]; [by destruct Hn|].
    rewrite current_subgroup_eq. cbn.
    destruct (Str.re_search_word _) as [t|]; cbn; [|done].
    unfold note. by repeat case_decide.
  - by destruct (decide (Str.slice_to 3 c ≠ "Qgs")).
Qed.

Lemma for_each_discover classes st :
  for_each discover classes st = Ok (foldl note st (tokens classes)).
Proof.
  revert st. induction classes as [|c classes IH]; intros st; [done|].
  cbn [for_each]. rewrite discover_eq. cbn.
  unfold tokens. cbn [omap list_omap].
  destruct (token_of c) as [t|]; cbn; apply IH.
Qed.

Lemma occurrences_snoc t ts t' :
  occurrences t (ts ++ [t'])
  = occurrences t ts + (if decide (t' = t) then 1 else 0).
Proof.
  unfold occurrences. rewrite filter_app, length_app. f_equal.
  rewrite filter_cons. by case_decide.
Qed.

Lemma occurrences_elem_of t ts : t ∈ ts <-> 1 <= occurrences t ts.
Proof.
  unfold occurrences. split.
  - intros Ht. assert (t ∈ filter (fun x => x = t) ts) as Hin
      by (by apply list_elem_of_filter).
    destruct (filter _ ts); [by apply elem_of_nil in Hin | cbn; lia].
  - destruct (filter _ ts) as [|x l] eqn:Hf; cbn; [lia|]. intros _.
    assert (x ∈ filter (fun x => x = t) ts) as Hin
      by (rewrite Hf; left).
    apply list_elem_of_filter in Hin as [-> ?]. done.
Qed.

Lemma od_set_fresh (t : string) (l : list string) :
  t ∉ l ->
  OD.set t [] ((fun t => (t, [])) <$> l) = (fun t => (t, [])) <$> (l ++ [t]).
Proof.
  induction l as [|x l IH]; intros Hin; [done|].
  apply not_elem_of_cons in Hin as [Hne Hin].
  cbn. rewrite decide_False by done. f_equal. by apply IH.
Qed.

Lemma discovered_nil : discovered [] (Scan [] [] OD.empty).
Proof.
  split; cbn.
  - intros t. rewrite elem_of_nil. unfold occurrences. cbn. lia.
  - intros t. rewrite elem_of_nil. unfold occurrences. cbn. lia.
  - constructor.
  - done.
Qed.

Lemma discovered_note ts st t :
  discovered ts st -> discovered (ts ++ [t]) (note st t).
Proof.
  intros [Hc Hs Hn Hr]. unfold note.
  destruct (decide (t ∉ candidates st)) as [Hnc|Hic].
  - assert (occurrences t ts = 0) as H0.
    { destruct (occurrences t ts) eqn:E; [done|].
      exfalso. apply Hnc, Hc. lia. }
    split; cbn; try done.
    + intros x. rewrite elem_of_app, list_elem_of_singleton, Hc,
        occurrences_snoc. case_decide; [subst x|]; intuition (try lia; try congruence).
    + intros x. rewrite Hs, occurrences_snoc.
      case_decide; subst; lia.
  - apply dec_stable in Hic. apply Hc in Hic.
    destruct (decide (t ∉ subgroups st)) as [Hns|His].
    + assert (occurrences t ts = 1) as H1.
      { destruct (decide (2 <= occurrences t ts)) as [H2|H2]; [|lia].
        by apply Hs in H2. }
      split; cbn.
      * intros x. rewrite Hc, occurrences_snoc. case_decide; subst; lia.
      * intros x. rewrite elem_of_app, list_elem_of_singleton, Hs,
          occurrences_snoc.
        case_decide; [subst x|]; intuition (try lia; try congruence).
      * apply NoDup_app. split_and!; [done| |apply NoDup_singleton].
        intros x Hx ->%list_elem_of_singleton. done.
      * rewrite Hr. by apply od_set_fresh.
    + apply dec_stable in His. apply Hs in His.
      split; try done.
      * intros x. rewrite Hc, occurrences_snoc. case_decide; subst; lia.
      * intros x. rewrite Hs, occurrences_snoc. case_decide; subst; lia.
Qed.

Lemma discovered_foldl ts pre st :
  discovered pre st -> discovered (pre ++ ts) (foldl note st ts).
Proof.
  revert pre st. induction ts as [|t ts IH]; intros pre st H.
  - by rewrite app_nil_r.
  - cbn. rewrite (assoc_L (++) pre [t] ts : pre ++ t :: ts = (pre ++ [t]) ++ ts).
    apply IH. by apply discovered_note.
Qed.

Lemma promoted_discovered classes :
  discovered (tokens classes)
    (foldl note (Scan [] [] OD.empty) (tokens classes)).
Proof. apply (discovered_foldl _ []), discovered_nil. Qed.

Lemma promoted_spec classes t :
  t ∈ promoted classes <-> 2 <= occurrences t (tokens classes).
Proof. apply (disc_subgroups _ _ (promoted_discovered classes)). Qed.

Lemma promoted_nodup classes : NoDup (promoted classes).
Proof. apply (disc_nodup _ _ (promoted_discovered classes)). Qed.

Lemma tokens_elem_of classes t :
  t ∈ tokens classes <-> exists c, c ∈ classes /\ token_of c = Some t.
Proof. unfold tokens. apply list_elem_of_omap. Qed.

Lemma promoted_token classes t :
  t ∈ promoted classes -> exists c, c ∈ classes /\ token_of c = Some t.
Proof.
  intros H%promoted_spec. apply tokens_elem_of, occurrences_elem_of. lia.
Qed.

Lemma other_not_promoted classes : "other" ∉ promoted classes.
Proof.
  intros (c & _ & Hc)%promoted_token. by apply token_of_not_other in Hc.
Qed.

Lemma keys_nodup classes : NoDup (promoted classes ++ ["other"]).
Proof.
  apply NoDup_app. split_and!.
  - apply promoted_nodup.
  - intros x Hx ->%list_elem_of_singleton. by apply other_not_promoted in Hx.
  - apply NoDup_singleton.
Qed.

Lemma od_append_ok k x (d : OD.t) :
  k ∈ OD.keys d -> NoDup (OD.keys d) ->
  OD.append k x d
  = Ok ((fun kv => (kv.1, if decide (kv.1 = k) then kv.2 ++ [x] else kv.2))
          <$> d).
Proof.
  induction d as [|[k' v'] d IH]; cbn; intros Hin Hnd.
  - by apply elem_of_nil in Hin.
  - apply NoDup_cons in Hnd as [Hk' Hnd].
    destruct (decide (k' = k)) as [->|Hne].
    + do 2 f_equal.
      clear IH Hin Hnd. induction d as [|[k2 v2] d IH]; [done|].
      cbn in *. apply not_elem_of_cons in Hk' as [? ?].
      rewrite decide_False by done. f_equal. by apply IH.
    + apply elem_of_cons in Hin as [->|Hin]; [done|].
      unfold OD.keys in IH. by rewrite IH.
Qed.

Lemma assign_eq c (d : OD.t) :
  assign c d
  = match bucket (OD.keys d) c with
    | Some k => OD.append k c d
    | None => Ok d
    end.
Proof.
  unfold assign, bucket, token_of, limit. cbn [andb].
  destruct (decide (Str.slice_to 3 c = "Qgs")) as [Hp|Hp].
  - destruct (decide (Str.slice_to 3 c ≠ "Qgs")) as [Hn|_]; [by destruct Hn|].
    rewrite current_subgroup_eq. cbn.
    destruct (Str.re_search_word _) as [t|]; cbn; [|done].
    by case_decide.
  - by destruct (decide (Str.slice_to 3 c ≠ "Qgs")).
Qed.

Lemma bucket_elem_of ks c k :
  "other" ∈ ks -> bucket ks c = Some k -> k ∈ ks.
Proof.
  unfold bucket. destruct (token_of c) as [t|]; cbn; [|done].
  intros Ho [= <-]. by case_decide.
Qed.

Lemma for_each_assign classes (d : OD.t) :
  NoDup (OD.keys d) -> "other" ∈ OD.keys d ->
  for_each assign classes d
  = Ok ((fun kv =>
           (kv.1,
            kv.2 ++ filter (fun c => bucket (OD.keys d) c = Some kv.1) classes))
          <$> d).
Proof.
  revert d. induction classes as [|c classes IH]; intros d Hnd Ho.
  - cbn. f_equal. symmetry. etrans; [|apply list_fmap_id].
    apply list_fmap_ext. intros i [k v] _. cbn. by rewrite app_nil_r.
  - cbn [for_each]. rewrite assign_eq.
    destruct (bucket (OD.keys d) c) as [k|] eqn:Hb.
    + rewrite od_append_ok by eauto using bucket_elem_of. cbn.
      set (d1 := _ <$> d).
      assert (OD.keys d1 = OD.keys d) as Hk.
      { unfold OD.keys, d1. rewrite <-list_fmap_compose.
        by apply list_fmap_ext; intros i [??] _. }
      rewrite IH by (by rewrite Hk). rewrite Hk. f_equal.
      unfold d1. rewrite <-list_fmap_compose.
      apply list_fmap_ext; intros i [k' v'] _. cbn. f_equal.
      rewrite Hb. destruct (decide (k' = k)) as [->|Hne].
      * rewrite decide_True by done. by rewrite <-(assoc_L (++)).
      * rewrite decide_False by congruence. done.
    + cbn. rewrite IH by done. f_equal.
      apply list_fmap_ext; intros i [k' v'] _. cbn. f_equal.
      by rewrite Hb, decide_False.
Qed.

Lemma extract_eq classes :
  extract_package_subgroups classes
  = Ok (filed (promoted classes ++ ["other"]) classes).
Proof.
  unfold extract_package_subgroups. rewrite for_each_discover. cbn.
  pose proof (promoted_discovered classes) as Hd.
  rewrite (disc_result _ _ Hd). fold (promoted classes).
  rewrite od_set_fresh by apply other_not_promoted.
  assert (OD.keys ((fun t => (t, [])) <$> promoted classes ++ ["other"])
          = promoted classes ++ ["other"]) as Hk.
  { unfold OD.keys. rewrite <-list_fmap_compose. apply list_fmap_id. }
  rewrite for_each_assign; rewrite Hk.
  - f_equal. unfold filed. by rewrite <-list_fmap_compose.
  - apply keys_nodup.
  - apply elem_of_app. right. left.
Qed.

Lemma filed_elem_of ks classes k (v : list string) :
  (k, v) ∈ filed ks classes
  <-> k ∈ ks /\ v = filter (fun c => bucket ks c = Some k) classes.
Proof.
  unfold filed. rewrite list_elem_of_fmap. split.
  - intros (k' & [= -> ->] & Hk). done.
  - intros [Hk ->]. eauto.
Qed.

Lemma filed_lookup ks classes i k (v : list string) :
  filed ks classes !! i = Some (k, v) -> ks !! i = Some k.
Proof.
  unfold filed. rewrite list_lookup_fmap.
  destruct (ks !! i); cbn; [|done]. by intros [= -> _].
Qed.

Lemma filed_member ks classes k (v : list string) c :
  (k, v) ∈ filed ks classes -> c ∈ v ->
  c ∈ classes /\ bucket ks c = Some k.
Proof.
  intros [_ ->]%filed_elem_of Hc.
  apply list_elem_of_filter in Hc as [? ?]. done.
Qed.

Lemma bucket_token ks c k :
  bucket ks c = Some k -> exists t, token_of c = Some t.
Proof. unfold bucket. destruct (token_of c); cbn; [eauto|done]. Qed.

Lemma bucket_promoted classes c t :
  token_of c = Some t -> t ∈ promoted classes ->
  bucket (promoted classes ++ ["other"]) c = Some t.
Proof.
  intros Ht Hp. unfold bucket. rewrite Ht. cbn.
  rewrite decide_True; [done|]. apply elem_of_app. by left.
Qed.

Lemma bucket_not_promoted classes c t :
  token_of c = Some t -> t ∉ promoted classes ->
  bucket (promoted classes ++ ["other"]) c = Some "other".
Proof.
  intros Ht Hp. unfold bucket. rewrite Ht. cbn.
  rewrite decide_False; [done|].
  intros [?| ->%list_elem_of_singleton]%elem_of_app; [done|].
  by apply token_of_not_other in Ht.
Qed.

Lemma bucket_dedicated classes c k :
  k ≠ "other" ->
  bucket (promoted classes ++ ["other"]) c = Some k <-> 
  token_of c = Some k /\ k ∈ promoted classes.
Proof.
  intros Hk. split.
  - intros Hb. destruct (bucket_token _ _ _ Hb) as [t Ht].
    destruct (decide (t ∈ promoted classes)) as [Hp|Hp].
    + rewrite (bucket_promoted _ _ _ Ht Hp) in Hb. by simplify_eq.
    + rewrite (bucket_not_promoted _ _ _ Ht Hp) in Hb. by simplify_eq.
  - intros [Ht Hp]. by apply bucket_promoted.
Qed.

Lemma occurrences_tokens t classes :
  occurrences t (tokens classes)
  = length (filter (fun c => token_of c = Some t) classes).
Proof.
  unfold occurrences, tokens.
  induction classes as [|c classes IH]; [done|].
  cbn [omap list_omap]. rewrite (filter_cons _ c).
  destruct (token_of c) as [t'|] eqn:Ht.
  - rewrite filter_cons.
    destruct (decide (t' = t)) as [->|Hne].
    + rewrite decide_True by done. cbn. by rewrite IH.
    + rewrite decide_False by congruence. done.
  - rewrite decide_False by done. done.
Qed.

(** ** Claims about the extractor *)

(** C2: an eligible identifier whose derived token occurs exactly once in
    the listing is a member of the catch-all subgroup ['other'] and of no
    dedicated subgroup. *)
Theorem singleton_token_in_other classes res c t :
  extract_package_subgroups classes = Ok res ->
  c ∈ classes ->
  token_of c = Some t ->
  occurrences t (tokens classes) = 1 ->
  (exists v, ("other", v) ∈ res /\ c ∈ v)
  /\ (forall k v, (k, v) ∈ res -> k ≠ "other" -> c ∉ v).
Proof.
  rewrite extract_eq. intros [= <-] Hc Ht Hocc.
  assert (t ∉ promoted classes) as Hp by (rewrite promoted_spec; lia).
  pose proof (bucket_not_promoted _ _ _ Ht Hp) as Hb.
  split.
  - eexists. split.
    + apply filed_elem_of. split; [|done]. apply elem_of_app. right. left.
    + by apply list_elem_of_filter.
  - intros k v Hkv Hk Hcv.
    destruct (filed_member _ _ _ _ _ Hkv Hcv) as [_ Hb']. congruence.
Qed.

Lemma singleton_token_in_other_witness :
  (exists v,
      ("other", v) ∈ [("Composer", ["QgsComposerItem"; "QgsComposerView"]);
                      ("other", ["QgsRasterLayer"])]
      /\ "QgsRasterLayer" ∈ v)
  /\ (forall k v,
        (k, v) ∈ [("Composer", ["QgsComposerItem"; "QgsComposerView"]);
                  ("other", ["QgsRasterLayer"])] ->
        k ≠ "other" -> "QgsRasterLayer" ∉ v).
Proof.
  apply (singleton_token_in_other
           ["QgsComposerItem"; "QgsComposerView"; "QgsRasterLayer"]
           _ "QgsRasterLayer" "Raster").
  - vm_compute. reflexivity.
  - apply list_elem_of_In. simpl. auto.
  - vm_compute. reflexivity.
  - vm_compute. reflexivity.
Defined.

(** C3: an eligible identifier whose derived token occurs two or more
    times in the listing is a member of the dedicated subgroup labelled by
    that token, which is a key of the result (and of no other subgroup); and
    on ["QgsComposerItem", "QgsComposerView", "QgsRasterLayer"] the result is
    exactly {"Composer": ["QgsComposerItem", "QgsComposerView"],
    "other": ["QgsRasterLayer"]}. *)
Theorem repeated_token_in_dedicated :
  (forall classes res c t,
      extract_package_subgroups classes = Ok res ->
      c ∈ classes ->
      token_of c = Some t ->
      2 <= occurrences t (tokens classes) ->
      t ∈ OD.keys res
      /\ (exists v, (t, v) ∈ res /\ c ∈ v)
      /\ (forall k v, (k, v) ∈ res -> c ∈ v -> k = t))
  /\ extract_package_subgroups
       ["QgsComposerItem"; "QgsComposerView"; "QgsRasterLayer"]
     = Ok [("Composer", ["QgsComposerItem"; "QgsComposerView"]);
           ("other", ["QgsRasterLayer"])].
Proof.
  split; [|by vm_compute].
  intros classes res c t. rewrite extract_eq. intros [= <-] Hc Ht Hocc.
  assert (t ∈ promoted classes) as Hp by (by rewrite promoted_spec).
  pose proof (bucket_promoted _ _ _ Ht Hp) as Hb.
  assert (t ∈ promoted classes ++ ["other"]) as Hk
    by (apply elem_of_app; by left).
  split_and!.
  - unfold OD.keys, filed. rewrite <-list_fmap_compose.
    by rewrite list_fmap_id.
  - eexists. split; [by apply filed_elem_of|]. by apply list_elem_of_filter.
  - intros k v Hkv Hcv.
    destruct (filed_member _ _ _ _ _ Hkv Hcv) as [_ Hb']. congruence.
Qed.

Lemma repeated_token_in_dedicated_witness :
  "Composer" ∈ OD.keys [("Composer", ["QgsComposerItem"; "QgsComposerView"]);
                        ("other", ["QgsRasterLayer"])]
  /\ (exists v,
        ("Composer", v) ∈ [("Composer", ["QgsComposerItem"; "QgsComposerView"]);
                           ("other", ["QgsRasterLayer"])]
        /\ "QgsComposerView" ∈ v)
  /\ (forall k v,
        (k, v) ∈ [("Composer", ["QgsComposerItem"; "QgsComposerView"]);
                  ("other", ["QgsRasterLayer"])] ->
        "QgsComposerView" ∈ v -> k = "Composer").
Proof.
  apply (proj1 repeated_token_in_dedicated
           ["QgsComposerItem"; "QgsComposerView"; "QgsRasterLayer"]
           _ "QgsComposerView" "Composer").
  - vm_compute. reflexivity.
  - apply list_elem_of_In. simpl. auto.
  - vm_compute. reflexivity.
  - vm_compute. lia.
Defined.

(** C4: no identifier is a member of two distinct subgroups of the result:
    the entries of the result that list it are one and the same entry. *)
Theorem at_most_one_subgroup classes res i j k1 v1 k2 v2 c :
  extract_package_subgroups classes = Ok res ->
  res !! i = Some (k1, v1) ->
  res !! j = Some (k2, v2) ->
  c ∈ v1 -> c ∈ v2 ->
  i = j.
Proof.
  rewrite extract_eq. intros [= <-] Hi Hj Hc1 Hc2.
  assert (k1 = k2) as <-.
  { apply list_elem_of_lookup_2 in Hi, Hj.
    destruct (filed_member _ _ _ _ _ Hi Hc1) as [_ Hb1].
    destruct (filed_member _ _ _ _ _ Hj Hc2) as [_ Hb2]. congruence. }
  apply filed_lookup in Hi, Hj.
  eapply NoDup_lookup; [apply keys_nodup|done..].
Qed.

Lemma at_most_one_subgroup_witness : 0 = 0.
Proof.
  apply (at_most_one_subgroup
           ["QgsComposerItem"; "QgsComposerView"; "QgsRasterLayer"]
           [("Composer", ["QgsComposerItem"; "QgsComposerView"]);
            ("other", ["QgsRasterLayer"])]
           0 0 "Composer" ["QgsComposerItem"; "QgsComposerView"]
           "Composer" ["QgsComposerItem"; "QgsComposerView"]
           "QgsComposerItem").
  - vm_compute. reflexivity.
  - reflexivity.
  - reflexivity.
  - apply list_elem_of_In. simpl. auto.
  - apply list_elem_of_In. simpl. auto.
Defined.

(** C5, as the code has it: the member list of every subgroup keeps the
    order of the listing (it is a subsequence of it), and it is free of
    duplicates whenever the listing is. *)
Theorem members_follow_listing classes res k v :
  extract_package_subgroups classes = Ok res ->
  (k, v) ∈ res ->
  v `sublist_of` classes /\ (NoDup classes -> NoDup v).
Proof.
  rewrite extract_eq. intros [= <-] [_ ->]%filed_elem_of. split.
  - apply sublist_filter.
  - apply NoDup_filter.
Qed.

Lemma members_follow_listing_witness :
  ["QgsComposerItem"; "QgsComposerView"]
    `sublist_of` ["QgsComposerItem"; "QgsComposerView"; "QgsRasterLayer"]
  /\ (NoDup ["QgsComposerItem"; "QgsComposerView"; "QgsRasterLayer"] ->
      NoDup ["QgsComposerItem"; "QgsComposerView"]).
Proof.
  apply (members_follow_listing
           ["QgsComposerItem"; "QgsComposerView"; "QgsRasterLayer"]
           [("Composer", ["QgsComposerItem"; "QgsComposerView"]);
            ("other", ["QgsRasterLayer"])]
           "Composer").
  - vm_compute. reflexivity.
  - apply list_elem_of_In. simpl. auto.
Defined.

(** C5 as stated fails: a listing that names an identifier twice yields a
    member list that names it twice. *)
Lemma members_duplicated :
  extract_package_subgroups ["QgsFoo"; "QgsFoo"]
  = Ok [("Foo", ["QgsFoo"; "QgsFoo"]); ("other", [])]
  /\ ~ NoDup ["QgsFoo"; "QgsFoo"].
Proof.
  split; [by vm_compute|].
  intros [Hin _]%NoDup_cons. apply Hin. left.
Qed.

(** C6: an identifier whose first three characters are not ['Qgs'] is a
    member of no subgroup of the result; every member of every subgroup
    starts with ['Qgs'], so on a member of the extractor's output the
    emitter's prefix guard falls through: the loop body is [write_class]. *)
Theorem non_sentinel_excluded classes res :
  extract_package_subgroups classes = Ok res ->
  (forall c, Str.slice_to 3 c ≠ "Qgs" ->
             forall k v, (k, v) ∈ res -> c ∉ v)
  /\ (forall k v c, (k, v) ∈ res -> c ∈ v ->
        Str.slice_to 3 c = "Qgs"
        /\ forall substitute template_text package_name fs,
             emit_class substitute template_text package_name k c fs
             = write_class substitute template_text package_name k c fs).
Proof.
  rewrite extract_eq. intros [= <-].
  assert (forall k v c,
             (k, v) ∈ filed (promoted classes ++ ["other"]) classes ->
             c ∈ v -> Str.slice_to 3 c = "Qgs") as Hq.
  { intros k v c Hkv Hc.
    destruct (filed_member _ _ _ _ _ Hkv Hc) as [_ Hb].
    apply bucket_token in Hb as [t Ht]. by apply token_of_sentinel in Ht. }
  split.
  - intros c Hc k v Hkv Hcv. apply Hc. eauto.
  - intros k v c Hkv Hc. split; [eauto|].
    intros. unfold emit_class. rewrite decide_False; [done|].
    intros Hn. apply Hn. eauto.
Qed.

Lemma non_sentinel_excluded_witness :
  ("Foo" ∉ ["QgsRasterLayer"])
  /\ Str.slice_to 3 "QgsRasterLayer" = "Qgs".
Proof.
  assert (extract_package_subgroups ["Foo"; "QgsRasterLayer"]
          = Ok [("other", ["QgsRasterLayer"])]) as E
    by (vm_compute; reflexivity).
  assert (("other", ["QgsRasterLayer"]) ∈ [("other", ["QgsRasterLayer"])])
    as Hin by (apply list_elem_of_In; simpl; auto).
  destruct (non_sentinel_excluded _ _ E) as [Hout Hmem]. split.
  - apply (Hout "Foo" ltac:(vm_compute; discriminate) _ _ Hin).
  - apply (Hmem _ _ "QgsRasterLayer" Hin).
    apply list_elem_of_In. simpl. auto.
Defined.

(** C7: on the empty listing the result is exactly {"other": []}, and on
    every listing the result has the key ['other']. *)
Theorem other_always_present :
  extract_package_subgroups [] = Ok [("other", [])]
  /\ forall classes,
       exists res, extract_package_subgroups classes = Ok res
                   /\ "other" ∈ OD.keys res.
Proof.
  split; [done|]. intros classes. eexists. split; [apply extract_eq|].
  unfold OD.keys, filed. rewrite <-list_fmap_compose, list_fmap_id.
  apply elem_of_app. right. left.
Qed.

(** C8: extraction returns a mapping for every listing of strings, every
    identifier of the listing being either skipped (no token, member of no
    subgroup) or filed in a subgroup; and [current_subgroup] returns a token
    or [None], it never raises. *)
Theorem extraction_total :
  (forall classes,
      exists res,
        extract_package_subgroups classes = Ok res
        /\ forall c, c ∈ classes ->
             (token_of c = None /\ forall k v, (k, v) ∈ res -> c ∉ v)
             \/ (exists k v, (k, v) ∈ res /\ c ∈ v))
  /\ (forall class_name,
        current_subgroup class_name = Ok None
        \/ exists t, current_subgroup class_name = Ok (Some t)).
Proof.
  split.
  - intros classes. eexists. split; [apply extract_eq|].
    intros c Hc. destruct (token_of c) as [t|] eqn:Ht.
    + right.
      assert (exists k, bucket (promoted classes ++ ["other"]) c = Some k)
        as [k Hb] by (unfold bucket; rewrite Ht; cbn; eauto).
      exists k, (filter (fun c => bucket (promoted classes ++ ["other"]) c
                                  = Some k) classes).
      split.
      * apply filed_elem_of. split; [|done].
        eapply bucket_elem_of; [|done]. apply elem_of_app. right. left.
      * by apply list_elem_of_filter.
    + left. split; [done|]. intros k v Hkv Hcv.
      destruct (filed_member _ _ _ _ _ Hkv Hcv) as [_ Hb].
      apply bucket_token in Hb as [t Ht']. congruence.
  - intros class_name. rewrite current_subgroup_eq.
    destruct (Str.re_search_word _); eauto.
Qed.

Lemma extraction_total_witness :
  exists res,
    extract_package_subgroups ["Foo"; "QgsRasterLayer"] = Ok res
    /\ ((token_of "Foo" = None /\ forall k v, (k, v) ∈ res -> "Foo" ∉ v)
        \/ (exists k v, (k, v) ∈ res /\ "Foo" ∈ v)).
Proof.
  destruct (proj1 extraction_total ["Foo"; "QgsRasterLayer"])
    as (res & Hres & Hall).
  exists res. split; [exact Hres|].
  apply Hall. apply list_elem_of_In. simpl. auto.
Defined.

(** C10: every dedicated subgroup of the result (every key but ['other'])
    has at least two members. *)
Theorem dedicated_at_least_two classes res k v :
  extract_package_subgroups classes = Ok res ->
  (k, v) ∈ res ->
  k ≠ "other" ->
  2 <= length v.
Proof.
  rewrite extract_eq. intros [= <-] [Hk ->]%filed_elem_of Hne.
  apply elem_of_app in Hk as [Hk|Hk%list_elem_of_singleton]; [|done].
  pose proof (proj1 (promoted_spec _ _) Hk) as Hocc.
  rewrite occurrences_tokens in Hocc.
  erewrite list_filter_iff; [exact Hocc|].
  intros c. cbn. rewrite bucket_dedicated by done. intuition.
Qed.

Lemma dedicated_at_least_two_witness :
  2 <= length ["QgsComposerItem"; "QgsComposerView"].
Proof.
  apply (dedicated_at_least_two
           ["QgsComposerItem"; "QgsComposerView"; "QgsRasterLayer"]
           [("Composer", ["QgsComposerItem"; "QgsComposerView"]);
            ("other", ["QgsRasterLayer"])]
           "Composer").
  - vm_compute. reflexivity.
  - apply list_elem_of_In. simpl. auto.
  - discriminate.
Defined.

(** ** The derived token *)

Lemma filter_fmap_String (P : string -> Prop) `{!forall w, Decision (P w)}
    c (l : list string) :
  filter P (String c <$> l) = String c <$> filter (fun w => P (String c w)) l.
Proof.
  induction l as [|w l IH]; [done|].
  cbn [fmap list_fmap]. rewrite !filter_cons. fold (fmap (String c) l).
  rewrite IH. by case_decide.
Qed.

Lemma filter_nothing (l : list string) : filter (fun _ => False) l = [].
Proof.
  induction l as [|w l IH]; [done|].
  by rewrite filter_cons, decide_False by tauto.
Qed.

Lemma lower_run_longest s :
  last (filter (fun w => all_lower w = true) (leading_runs s))
  = Some (Str.lower_run s).
Proof.
  induction s as [|c s IH]; [done|].
  cbn [leading_runs]. rewrite filter_cons, decide_True by done.
  rewrite last_cons, filter_fmap_String, fmap_last. cbn [all_lower Str.lower_run].
  destruct (Str.is_lower c); cbn [andb].
  - by rewrite IH.
  - by rewrite (list_filter_iff _ (fun _ => False)), filter_nothing.
Qed.

(** The regular expression of the code takes the longest leading run that
    the pattern of the specification matches. *)
Lemma re_search_word_longest s :
  Str.re_search_word s = spec_longest_word s.
Proof.
  unfold spec_longest_word. destruct s as [|c s]; [done|].
  cbn [leading_runs Str.re_search_word].
  rewrite filter_cons, decide_False by done.
  rewrite filter_fmap_String, fmap_last. cbn [spec_word].
  destruct (Str.is_upper c); cbn [andb].
  - by rewrite lower_run_longest.
  - by rewrite (list_filter_iff _ (fun _ => False)), filter_nothing.
Qed.

Lemma prefix_cons_ne a s1 b s2 :
  a ≠ b -> String.prefix (String a s1) (String b s2) = false.
Proof. intros Hne. simpl. by destruct (ascii_dec a b). Qed.

Lemma replace_cons_ne old new c s :
  String.prefix old (String c s) = false ->
  Str.replace old new (String c s) = String c (Str.replace old new s).
Proof. unfold Str.replace. simpl. by intros ->. Qed.

Lemma replace_sentinel_prefix rest :
  Str.replace "Qgs" "" (String "Q" (String "g" (String "s" rest)))
  = Str.replace "Qgs" "" rest.
Proof. by destruct rest. Qed.

(** Where the specification derives no token the code derives none either,
    so the identifier is skipped. *)
Lemma spec_token_none_skipped c :
  Str.slice_to 3 c = "Qgs" -> spec_token c = None -> token_of c = None.
Proof.
  unfold spec_token, spec_strip_prefix, token_of. intros Hq.
  rewrite <-re_search_word_longest, decide_True, current_subgroup_eq by done.
  destruct c as [|c1 [|c2 [|c3 rest]]]; try done.
  injection Hq as -> -> -> _. rewrite replace_sentinel_prefix.
  cbn [drop_chars].
  destruct rest as [|x r]; [done|]. cbn [Str.re_search_word].
  destruct (Str.is_upper x) eqn:Hx; [done|]. intros _.
  rewrite replace_cons_ne.
  - cbn [Str.re_search_word]. by rewrite Hx.
  - apply prefix_cons_ne. by intros <-.
Qed.

Lemma replace_absent old new s :
  contains old s = false -> Str.replace old new s = s.
Proof.
  induction s as [|c s IH]; [done|]. cbn [contains].
  intros [Hp Hs]%orb_false_elim.
  rewrite replace_cons_ne by done. by rewrite IH.
Qed.

(** On an identifier in which ['Qgs'] occurs as the prefix only, the code
    derives the token the specification describes. *)
Lemma token_of_spec_token c :
  Str.slice_to 3 c = "Qgs" ->
  contains "Qgs" (spec_strip_prefix c) = false ->
  token_of c = spec_token c.
Proof.
  unfold spec_token, spec_strip_prefix, token_of. intros Hq Hc.
  rewrite <-re_search_word_longest, decide_True, current_subgroup_eq by done.
  destruct c as [|c1 [|c2 [|c3 rest]]]; try done.
  injection Hq as -> -> -> _. rewrite replace_sentinel_prefix.
  cbn [drop_chars] in *. rewrite replace_absent by done.
  by destruct (Str.re_search_word rest).
Qed.

(** C1 fails on the code: [current_subgroup] removes every occurrence of
    ['Qgs'], not only the prefix.  For ["QgsQgsFoo"] the code derives the
    token ["Foo"] where removing the prefix and taking the longest leading
    capitalised run gives ["Qgs"], and the listing
    ["QgsQgsFoo", "QgsFooBar"] is clustered under ["Foo"]. *)
Theorem current_subgroup_removes_every_sentinel :
  current_subgroup "QgsQgsFoo" = Ok (Some "Foo")
  /\ spec_token "QgsQgsFoo" = Some "Qgs"
  /\ spec_token "QgsFooBar" = Some "Foo"
  /\ extract_package_subgroups ["QgsQgsFoo"; "QgsFooBar"]
     = Ok [("Foo", ["QgsQgsFoo"; "QgsFooBar"]); ("other", [])].
Proof. repeat split; by vm_compute. Qed.

(** ** The emitter *)

Lemma py_bind_ok {A B} (m : py A) (k : A -> py B) b :
  m ≫= k = Ok b -> exists a, m = Ok a /\ k a = Ok b.
Proof. destruct m as [a|e]; cbn; [eauto|done]. Qed.

Ltac bind_ok H :=
  let a := fresh "fs" in
  let Ha := fresh "H" in
  apply py_bind_ok in H as (a & Ha & H).

Lemma outside_api_refl fs : outside_api fs fs.
Proof. by intros p _. Qed.

Lemma outside_api_trans fs1 fs2 fs3 :
  outside_api fs1 fs2 -> outside_api fs2 fs3 -> outside_api fs1 fs3.
Proof. intros H12 H23 p Hp. by rewrite H23, H12. Qed.

Lemma outside_api_insert fs q x :
  FS.under "api" q = true -> outside_api fs (<[q := x]> fs).
Proof.
  intros Hq p Hp. apply lookup_insert_ne. intros ->. congruence.
Qed.

Lemma under_api rest :
  FS.under "api" (String "a" (String "p" (String "i" (String "/" rest))))
  = true.
Proof. by destruct rest. Qed.

Lemma mkdir_outside q fs fs' :
  FS.under "api" q = true -> FS.mkdir q fs = Ok fs' -> outside_api fs fs'.
Proof.
  unfold FS.mkdir. intros Hq H. bind_ok H.
  destruct (fs !! q); simplify_eq. by apply outside_api_insert.
Qed.

Lemma open_w_outside q fs fs' :
  FS.under "api" q = true -> FS.open_w q fs = Ok fs' -> outside_api fs fs'.
Proof.
  unfold FS.open_w. intros Hq H. bind_ok H.
  destruct (fs !! q) as [[|?]|]; simplify_eq; by apply outside_api_insert.
Qed.

Lemma write_outside q text fs fs' :
  FS.under "api" q = true -> FS.write q text fs = Ok fs' -> outside_api fs fs'.
Proof.
  unfold FS.write. intros Hq H.
  destruct (fs !! q) as [[|?]|]; simplify_eq; by apply outside_api_insert.
Qed.

(** One step of a run: the operation [lem] on a path below [api]. *)
Ltac outside_step lem :=
  eapply outside_api_trans;
  [eapply lem; [|eassumption]; apply under_api|].

Lemma for_each_outside {A} (body : A -> FS.t -> py FS.t) l fs fs' :
  (forall x fs fs', body x fs = Ok fs' -> outside_api fs fs') ->
  for_each body l fs = Ok fs' -> outside_api fs fs'.
Proof.
  intros Hbody. revert fs. induction l as [|x l IH]; intros fs H.
  - injection H as <-. apply outside_api_refl.
  - cbn [for_each] in H. bind_ok H.
    eapply outside_api_trans; [by eapply Hbody | by apply IH].
Qed.

Section EmitterFrame.

Variables dir_core dir_gui dir_analysis : list string.
Variable substitute : string -> string -> string -> string -> py string.

Lemma write_class_outside template_text package_name package_subgroup c fs fs' :
  write_class substitute template_text package_name package_subgroup c fs
  = Ok fs' ->
  outside_api fs fs'.
Proof.
  unfold write_class. intros H. do 3 bind_ok H.
  outside_step open_w_outside.
  outside_step write_outside.
  eapply write_outside; [|eassumption]. apply under_api.
Qed.

Lemma emit_class_outside template_text package_name package_subgroup c fs fs' :
  emit_class substitute template_text package_name package_subgroup c fs
  = Ok fs' ->
  outside_api fs fs'.
Proof.
  unfold emit_class. case_decide.
  - intros [= <-]. apply outside_api_refl.
  - apply write_class_outside.
Qed.

Lemma emit_subgroup_outside template_text package_name entry fs fs' :
  emit_subgroup substitute template_text package_name entry fs = Ok fs' ->
  outside_api fs fs'.
Proof.
  destruct entry as [package_subgroup classes]. unfold emit_subgroup.
  intros H. do 4 bind_ok H.
  outside_step write_outside.
  outside_step mkdir_outside.
  outside_step open_w_outside.
  outside_step write_outside.
  eapply for_each_outside; [|eassumption]. apply emit_class_outside.
Qed.

Lemma emit_package_outside template_text entry fs fs' :
  emit_package substitute template_text entry fs = Ok fs' ->
  outside_api fs fs'.
Proof.
  destruct entry as [package_name package]. unfold emit_package.
  intros H. do 5 bind_ok H.
  outside_step mkdir_outside.
  outside_step write_outside.
  outside_step open_w_outside.
  outside_step write_outside.
  eapply for_each_outside; [|eassumption]. apply emit_subgroup_outside.
Qed.

Lemma populate_outside fs fs' :
  populate dir_core dir_gui dir_analysis substitute fs = Ok fs' ->
  outside_api fs fs'.
Proof.
  unfold populate. intros H. do 4 bind_ok H.
  outside_step open_w_outside.
  outside_step write_outside.
  eapply outside_api_trans;
    [eapply for_each_outside; [|eassumption]; apply emit_package_outside|].
  eapply write_outside; [|eassumption]. apply under_api.
Qed.

(** The state in which [generate_docs] starts to populate the tree. *)
Lemma generate_docs_cleared fs fs' :
  generate_docs dir_core dir_gui dir_analysis substitute fs = Ok fs' ->
  let cleared := FS.rmtree "api" (FS.rmtree "build" fs) in
  cleared !! "api" = None
  /\ populate dir_core dir_gui dir_analysis substitute
       (<["api" := Dir]> cleared) = Ok fs'.
Proof.
  unfold generate_docs, FS.mkdir. cbn. intros H.
  destruct (FS.rmtree "api" (FS.rmtree "build" fs) !! "api") eqn:E;
    [done|]. done.
Qed.

Lemma rmtree_lookup d fs p :
  FS.rmtree d fs !! p
  = if decide (fs !! d = Some Dir /\ (p = d \/ FS.under d p = true))
    then None else fs !! p.
Proof.
  unfold FS.rmtree. case_decide as Hd.
  - destruct Hd as [-> Hp]. apply map_lookup_filter_None. right.
    intros x _ [Hne Hu]. cbn [fst] in *. destruct Hp; congruence.
  - destruct (fs !! d) as [[|c]|] eqn:E; try done.
    destruct (fs !! p) as [x|] eqn:Ep.
    + apply map_lookup_filter_Some. split; [done|]. cbn [fst].
      split.
      * intros ->. apply Hd. auto.
      * destruct (FS.under d p) eqn:Hu; [|done]. exfalso. apply Hd. auto.
    + apply map_lookup_filter_None. by left.
Qed.

Lemma rmtree_not_dir d fs : fs !! d ≠ Some Dir -> FS.rmtree d fs = fs.
Proof. unfold FS.rmtree. by destruct (fs !! d) as [[|?]|]. Qed.

Lemma rmtree_self d fs : FS.rmtree d fs !! d ≠ Some Dir.
Proof.
  rewrite rmtree_lookup. case_decide as Hd; [done|].
  intros H. apply Hd. auto.
Qed.

Lemma rmtree_lookup_other d fs p :
  p ≠ d -> FS.under d p = false -> FS.rmtree d fs !! p = fs !! p.
Proof.
  intros Hne Hu. rewrite rmtree_lookup.
  apply decide_False. intros [_ [?|?]]; congruence.
Qed.

End EmitterFrame.

(** C9: when a run of [generate_docs] succeeds, a second run on the file
    system it leaves, with the same namespace listings and the same
    template, succeeds too and leaves the same file system, hence the same
    output tree. *)
Theorem generate_docs_idempotent
    dir_core dir_gui dir_analysis substitute (fs0 fs1 : FS.t) :
  api_rooted fs0 ->
  generate_docs dir_core dir_gui dir_analysis substitute fs0 = Ok fs1 ->
  generate_docs dir_core dir_gui dir_analysis substitute fs1 = Ok fs1.
Proof.
  intros Hwf Hrun.
  apply generate_docs_cleared in Hrun as [Hapi Hpop]. cbn zeta in *.
  pose proof (populate_outside _ _ _ _ _ _ Hpop) as Hout.
  set (b := FS.rmtree "api" (FS.rmtree "build" fs0)) in *.
  assert (fs1 !! "api" = Some Dir) as Hdir.
  { rewrite Hout by done. apply lookup_insert_eq. }
  assert (FS.rmtree "build" fs1 = fs1) as Hbuild.
  { apply rmtree_not_dir.
    rewrite Hout, lookup_insert_ne by done. unfold b.
    rewrite rmtree_lookup_other by done. apply rmtree_self. }
  assert (<["api" := Dir]> (FS.rmtree "api" fs1) = <["api" := Dir]> b) as Heq.
  { apply map_eq. intros p.
    destruct (decide (p = "api")) as [->|Hne].
    { by rewrite !lookup_insert_eq. }
    rewrite !lookup_insert_ne by done. rewrite rmtree_lookup.
    destruct (FS.under "api" p) eqn:Hu.
    - rewrite decide_True by auto. symmetry. unfold b.
      rewrite rmtree_lookup. case_decide as Hd; [done|].
      destruct (FS.rmtree "build" fs0 !! p) as [x|] eqn:Ep; [|done].
      exfalso. apply Hd. split; [|auto].
      rewrite rmtree_lookup in Ep |- *.
      rewrite decide_False by (intros [_ [?|?]]; done).
      case_decide; [done|]. apply Hwf with p; eauto.
    - rewrite decide_False by (intros [_ [?|?]]; congruence).
      rewrite Hout by done. by rewrite lookup_insert_ne. }
  unfold generate_docs, FS.mkdir. rewrite Hbuild. cbn.
  rewrite rmtree_lookup, decide_True by auto. rewrite Heq. exact Hpop.
Qed.

Lemma sample_fs_api_rooted : api_rooted sample_fs.
Proof.
  intros p Hu [x Hx]. unfold sample_fs in Hx.
  apply lookup_insert_Some in Hx as [[<- _]|[_ Hx]]; [by vm_compute in Hu|].
  apply lookup_insert_Some in Hx as [[<- _]|[_ Hx]]; [by vm_compute in Hu|].
  by rewrite lookup_empty in Hx.
Qed.

Lemma generate_docs_idempotent_witness :
  exists fs1,
    generate_docs sample_core [] [] sample_substitute sample_fs = Ok fs1
    /\ generate_docs sample_core [] [] sample_substitute fs1 = Ok fs1.
Proof.
  exists (match generate_docs sample_core [] [] sample_substitute sample_fs
          with Ok fs => fs | Raise _ => sample_fs end).
  assert (generate_docs sample_core [] [] sample_substitute sample_fs
          = Ok (match
                   generate_docs sample_core [] [] sample_substitute sample_fs
                 with Ok fs => fs | Raise _ => sample_fs end)) as E
    by vm_cast_no_check (eq_refl
         (generate_docs sample_core [] [] sample_substitute sample_fs)).
  split; [exact E|].
  apply (generate_docs_idempotent _ _ _ _ sample_fs);
    [exact sample_fs_api_rooted | exact E].
Defined.

(** ** Further properties of the extractor *)

Lemma filed_keys ks classes : OD.keys (filed ks classes) = ks.
Proof.
  unfold OD.keys, filed. rewrite <-list_fmap_compose. apply list_fmap_id.
Qed.

Lemma lower_run_all_lower s : all_lower (Str.lower_run s) = true.
Proof.
  induction s as [|c s IH]; [done|]. cbn.
  destruct (Str.is_lower c) eqn:Hc; [|done]. cbn. by rewrite Hc.
Qed.

Lemma token_of_word c t : token_of c = Some t -> spec_word t = true.
Proof.
  unfold token_of. case_decide; [|done].
  rewrite current_subgroup_eq. unfold Str.re_search_word.
  destruct (Str.replace _ _ _) as [|u r]; [done|].
  destruct (Str.is_upper u) eqn:Hu; [|done].
  intros [= <-]. cbn. by rewrite Hu, lower_run_all_lower.
Qed.

(** The keys of the result are the tokens seen at least twice, each once,
    followed by ['other'], which is the last key. *)
Theorem result_keys classes res :
  extract_package_subgroups classes = Ok res ->
  NoDup (OD.keys res)
  /\ last (OD.keys res) = Some "other"
  /\ forall k, k ∈ OD.keys res
               <-> k = "other" \/ 2 <= occurrences k (tokens classes).
Proof.
  rewrite extract_eq. intros [= <-]. rewrite filed_keys. split_and!.
  - apply keys_nodup.
  - apply last_snoc.
  - intros k. rewrite elem_of_app, list_elem_of_singleton, promoted_spec.
    tauto.
Qed.

Lemma result_keys_witness :
  NoDup ["Composer"; "other"]
  /\ last ["Composer"; "other"] = Some "other".
Proof.
  destruct (result_keys
              ["QgsComposerItem"; "QgsComposerView"; "QgsRasterLayer"]
              [("Composer", ["QgsComposerItem"; "QgsComposerView"]);
               ("other", ["QgsRasterLayer"])]
              ltac:(vm_compute; reflexivity)) as (Hnd & Hlast & _).
  split; [exact Hnd | exact Hlast].
Defined.

(** Every dedicated key of the result is a capitalised word: one upper-case
    letter followed by lower-case letters only. *)
Theorem dedicated_key_is_word classes res k :
  extract_package_subgroups classes = Ok res ->
  k ∈ OD.keys res ->
  k ≠ "other" ->
  spec_word k = true.
Proof.
  rewrite extract_eq. intros [= <-]. rewrite filed_keys.
  intros [Hk|Hk%list_elem_of_singleton]%elem_of_app Hne; [|done].
  apply promoted_token in Hk as (c & _ & Hc). by eapply token_of_word.
Qed.

Lemma dedicated_key_is_word_witness : spec_word "Composer" = true.
Proof.
  apply (dedicated_key_is_word
           ["QgsComposerItem"; "QgsComposerView"; "QgsRasterLayer"]
           [("Composer", ["QgsComposerItem"; "QgsComposerView"]);
            ("other", ["QgsRasterLayer"])]).
  - vm_compute. reflexivity.
  - apply list_elem_of_In. simpl. auto.
  - discriminate.
Defined.

(** The member lists are exact: a dedicated subgroup holds the identifiers
    of the listing whose token is its label and no others, and ['other']
    holds those whose token occurs once in the listing and no others. *)
Theorem member_lists_exact classes res k v c :
  extract_package_subgroups classes = Ok res ->
  (k, v) ∈ res ->
  c ∈ v
  <-> c ∈ classes
      /\ exists t, token_of c = Some t
                   /\ if decide (k = "other")
                      then occurrences t (tokens classes) = 1
                      else t = k.
Proof.
  rewrite extract_eq. intros [= <-] [Hk ->]%filed_elem_of.
  rewrite list_elem_of_filter.
  assert (forall t, token_of c = Some t -> c ∈ classes ->
                    1 <= occurrences t (tokens classes)) as Hocc.
  { intros t Ht Hc. apply occurrences_elem_of, tokens_elem_of. eauto. }
  split.
  - intros [Hb Hc]. split; [done|].
    destruct (bucket_token _ _ _ Hb) as [t Ht]. exists t. split; [done|].
    destruct (decide (t ∈ promoted classes)) as [Hp|Hp].
    + rewrite (bucket_promoted _ _ _ Ht Hp) in Hb. injection Hb as <-.
      rewrite decide_False; [done|]. intros ->.
      by apply other_not_promoted in Hp.
    + rewrite (bucket_not_promoted _ _ _ Ht Hp) in Hb. injection Hb as <-.
      rewrite decide_True by done.
      rewrite promoted_spec in Hp. specialize (Hocc t Ht Hc). lia.
  - intros [Hc (t & Ht & Hcase)]. split; [|done].
    case_decide as Hko.
    + subst k. apply bucket_not_promoted with t; [done|].
      rewrite promoted_spec. lia.
    + subst t. apply bucket_promoted; [done|].
      apply elem_of_app in Hk as [Hk|Hk%list_elem_of_singleton]; done.
Qed.

Lemma member_lists_exact_witness :
  "QgsRasterLayer" ∈ ["QgsRasterLayer"]
  <-> "QgsRasterLayer"
        ∈ ["QgsComposerItem"; "QgsComposerView"; "QgsRasterLayer"]
      /\ exists t, token_of "QgsRasterLayer" = Some t
                   /\ if decide ("other" = "other")
                      then occurrences t
                             (tokens ["QgsComposerItem"; "QgsComposerView";
                                      "QgsRasterLayer"]) = 1
                      else t = "other".
Proof.
  apply (member_lists_exact
           ["QgsComposerItem"; "QgsComposerView"; "QgsRasterLayer"]
           [("Composer", ["QgsComposerItem"; "QgsComposerView"]);
            ("other", ["QgsRasterLayer"])]).
  - vm_compute. reflexivity.
  - apply list_elem_of_In. simpl. auto.
Defined.

Lemma mjoin_insert (f f' : string -> list string) k0 c (ks : list string) :
  NoDup ks -> k0 ∈ ks ->
  (forall k, f' k = if decide (k = k0) then c :: f k else f k) ->
  mjoin (f' <$> ks) ≡ₚ c :: mjoin (f <$> ks).
Proof.
  intros Hnd Hin Hf'. induction ks as [|k ks IH]; [by apply elem_of_nil in Hin|].
  apply NoDup_cons in Hnd as [Hk Hnd]. cbn. rewrite Hf'.
  destruct (decide (k = k0)) as [->|Hne].
  - assert (f' <$> ks = f <$> ks) as ->; [|done].
    apply list_fmap_ext. intros i k Hik.
    rewrite Hf', decide_False; [done|]. intros ->.
    apply Hk. by eapply list_elem_of_lookup_2.
  - apply elem_of_cons in Hin as [->|Hin]; [done|].
    rewrite IH by done. by rewrite Permutation_middle.
Qed.

(** The member lists taken together hold the eligible identifiers of the
    listing, each as often as the listing names it, and nothing else. *)
Theorem members_partition_eligible classes res :
  extract_package_subgroups classes = Ok res ->
  mjoin (res.*2) ≡ₚ filter (fun c => is_Some (token_of c)) classes.
Proof.
  rewrite extract_eq. intros [= <-]. unfold filed.
  rewrite <-list_fmap_compose.
  set (K := promoted classes ++ ["other"]).
  assert (NoDup K) as Hnd by apply keys_nodup.
  assert ("other" ∈ K) as Ho by (apply elem_of_app; right; left).
  generalize K Hnd Ho. clear K Hnd Ho. intros K Hnd Ho.
  induction classes as [|c classes IH].
  - clear. induction K as [|k K IH]; [done|]. cbn. by rewrite <-IH.
  - rewrite filter_cons. destruct (bucket K c) as [k0|] eqn:Hb.
    + destruct (bucket_token _ _ _ Hb) as [t Ht].
      rewrite decide_True by (by rewrite Ht). rewrite <-IH.
      apply mjoin_insert with k0; [done|by eapply bucket_elem_of|].
      intros k. unfold compose. cbn [snd]. rewrite (filter_cons _ c), Hb.
      destruct (decide (k = k0)) as [->|Hne].
      * by rewrite decide_True.
      * rewrite decide_False; [done|]. by intros [= ->].
    + assert (token_of c = None) as Ht.
      { unfold bucket in Hb. by destruct (token_of c). }
      rewrite decide_False by (rewrite Ht; by intros [? ?]).
      rewrite <-IH.
      match goal with
      | |- mjoin ?a ≡ₚ mjoin ?b => assert (a = b) as ->; [|done]
      end.
      apply list_fmap_ext. intros i k _. unfold compose. cbn [snd].
      rewrite (filter_cons _ c), Hb. by rewrite decide_False.
Qed.

Lemma members_partition_eligible_witness :
  mjoin ([("Composer", ["QgsComposerItem"; "QgsComposerView"]);
          ("other", ["QgsRasterLayer"])].*2)
  ≡ₚ filter (fun c => is_Some (token_of c))
            ["QgsRasterLayer"; "Foo"; "QgsComposerItem"; "QgsComposerView"].
Proof.
  apply (members_partition_eligible
           ["QgsRasterLayer"; "Foo"; "QgsComposerItem"; "QgsComposerView"]).
  vm_compute. reflexivity.
Defined.

Lemma tokens_filter_eligible classes :
  tokens (filter (fun c => is_Some (token_of c)) classes) = tokens classes.
Proof.
  unfold tokens. induction classes as [|c classes IH]; [done|].
  rewrite filter_cons. destruct (token_of c) as [t|] eqn:Ht.
  - rewrite decide_True by done. cbn. by rewrite Ht, IH.
  - rewrite decide_False by (by intros [? ?]). cbn. by rewrite Ht.
Qed.

(** The identifiers that the loops skip have no influence on the result:
    removing them from the listing leaves the result unchanged. *)
Theorem skipped_identifiers_irrelevant classes :
  extract_package_subgroups
    (filter (fun c => is_Some (token_of c)) classes)
  = extract_package_subgroups classes.
Proof.
  rewrite !extract_eq. unfold promoted. rewrite tokens_filter_eligible.
  fold (promoted classes). f_equal. unfold filed.
  apply list_fmap_ext. intros i k _. f_equal.
  rewrite list_filter_filter. apply list_filter_iff. intros c. split.
  - tauto.
  - intros Hb. split; [done|]. apply bucket_token in Hb as [t ->]. done.
Qed.

(** ** Paths *)

#[local] Arguments String.append : simpl nomatch.

Lemma append_assoc (a b c : string) : (a +:+ b) +:+ c = a +:+ (b +:+ c).
Proof. induction a as [|x a IH]; [done|]. cbn. by rewrite IH. Qed.

Lemma append_nil_r (a : string) : a +:+ "" = a.
Proof. induction a as [|x a IH]; [done|]. cbn. by rewrite IH. Qed.

Lemma append_inj_r (a b c : string) : a +:+ c = b +:+ c -> a = b.
Proof.
  assert (forall x y : string,
             String.length (x +:+ y) = String.length x + String.length y)
    as Hlen.
  { intros x y. induction x as [|? x IH]; [done|]. cbn. by rewrite IH. }
  revert b. induction a as [|x a IH]; intros [|y b] H; [done| | |].
  - apply (f_equal String.length) in H. cbn in H. rewrite Hlen in H. lia.
  - apply (f_equal String.length) in H. cbn in H. rewrite Hlen in H. lia.
  - injection H as -> H. f_equal. by apply IH.
Qed.

Lemma prefix_spec (a b : string) :
  String.prefix a b = true <-> exists r, b = a +:+ r.
Proof.
  revert b. induction a as [|x a IH]; intros b.
  - split; [intros _; by exists b | by destruct b].
  - destruct b as [|y b]; simpl.
    + split; [done | by intros [r ?]].
    + destruct (ascii_dec x y) as [->|Hne].
      * rewrite IH. split; intros [r Hr]; exists r;
          [by rewrite Hr | by injection Hr].
      * split; [done | intros [r Hr]; injection Hr as <- _; done].
Qed.

Lemma within_spec d p :
  within d p
  <-> exists r, p = d +:+ r /\ (r = "" \/ exists r', r = String "/" r').
Proof.
  unfold within, FS.under. rewrite prefix_spec. split.
  - intros [->|[r ->]].
    + exists "". by rewrite append_nil_r; auto.
    + exists (String "/" r). rewrite append_assoc. eauto.
  - intros (r & -> & [->|[r' ->]]).
    + left. apply append_nil_r.
    + right. exists r'. by rewrite append_assoc.
Qed.

Lemma within_refl d : within d d.
Proof. by left. Qed.

Lemma within_child d x : within d (child d x).
Proof. apply within_spec. exists (String "/" x). eauto. Qed.

Lemma within_trans d e p : within d e -> within e p -> within d p.
Proof.
  rewrite !within_spec. intros (r1 & -> & H1) (r2 & -> & H2).
  exists (r1 +:+ r2). split; [apply append_assoc|].
  destruct H1 as [->|[r' ->]]; [by cbn | right; by exists (r' +:+ r2)].
Qed.

Lemma child_inj d x y : child d x = child d y -> x = y.
Proof.
  unfold child. intros H%(inj (String.append d)). by injection H.
Qed.

Lemma child_ne_self d x : child d x ≠ d.
Proof.
  unfold child. intros H. rewrite <-(append_nil_r d) in H at 2.
  by apply (inj (String.append d)) in H.
Qed.

Lemma child_child_ne d x y : child (child d x) y ≠ d.
Proof.
  unfold child. rewrite append_assoc. intros H.
  rewrite <-(append_nil_r d) in H at 2.
  by apply (inj (String.append d)) in H.
Qed.

Lemma slash_free_split a b ra rb :
  slash_free a = true -> slash_free b = true ->
  (ra = "" \/ exists r, ra = String "/" r) ->
  (rb = "" \/ exists r, rb = String "/" r) ->
  a +:+ ra = b +:+ rb -> a = b.
Proof.
  revert b. induction a as [|x a IH]; intros [|y b] Ha Hb Hra Hrb H;
    cbn in *.
  - done.
  - exfalso. destruct Hra as [->|[r ->]]; [done|]. injection H as <- _.
    by cbn in Hb.
  - exfalso. destruct Hrb as [->|[r ->]]; [done|]. injection H as -> _.
    by cbn in Ha.
  - injection H as -> H. f_equal.
    apply andb_prop in Ha as [_ Ha]. apply andb_prop in Hb as [_ Hb]. eauto.
Qed.

(** Two distinct entries of a directory have nothing in common. *)
Lemma siblings_disjoint d a b p :
  slash_free a = true -> slash_free b = true -> a ≠ b ->
  within (child d a) p -> within (child d b) p -> False.
Proof.
  intros Ha Hb Hne. rewrite !within_spec. unfold child.
  intros (ra & -> & Hra) (rb & H & Hrb).
  rewrite !append_assoc in H. apply (inj (String.append d)) in H.
  injection H as H. apply Hne.
  exact (slash_free_split a b ra rb Ha Hb Hra Hrb H).
Qed.

Lemma spec_word_slash_free k : spec_word k = true -> slash_free k = true.
Proof.
  destruct k as [|c k]; [done|]. cbn.
  intros [Hc Hk]%andb_prop. apply andb_true_intro. split.
  - destruct (Ascii.eqb_spec c "/") as [->|]; [by vm_compute in Hc | done].
  - induction k as [|x k IH]; [done|]. cbn in *.
    apply andb_prop in Hk as [Hx Hk]. apply andb_true_intro. split; [|auto].
    destruct (Ascii.eqb_spec x "/") as [->|]; [by vm_compute in Hx | done].
Qed.

Lemma spec_word_not_index k : spec_word k = true -> k ≠ "index.rst".
Proof. intros H ->. by vm_compute in H. Qed.

Lemma sentinel_not_index c :
  Str.slice_to 3 c = "Qgs" -> c +:+ ".rst" ≠ "index.rst".
Proof.
  destruct c as [|c1 [|c2 [|c3 rest]]]; try done.
  intros [= -> -> -> _]. done.
Qed.

Lemma package_dir_child pn : package_dir pn = child "api" pn.
Proof. done. Qed.

Lemma index_of_child d : index_of d = child d "index.rst".
Proof. done. Qed.

Lemma subgroup_dir_child pn sub :
  subgroup_dir pn sub = child (package_dir pn) sub.
Proof. done. Qed.

Lemma class_path_child pn sub c :
  class_path pn sub c = child (subgroup_dir pn sub) (c +:+ ".rst").
Proof.
  unfold class_path, subgroup_dir, child. cbn. do 4 f_equal.
  by rewrite !append_assoc.
Qed.

Lemma class_path_index_ne pn sub c :
  Str.slice_to 3 c = "Qgs" ->
  class_path pn sub c ≠ index_of (subgroup_dir pn sub).
Proof.
  intros Hq. rewrite class_path_child, index_of_child.
  intros H%child_inj. by apply sentinel_not_index in H.
Qed.

Lemma class_path_inj pn sub c c' :
  class_path pn sub c = class_path pn sub c' -> c = c'.
Proof.
  rewrite !class_path_child. intros H%child_inj. by apply append_inj_r in H.
Qed.

(** ** What the file operations do when they succeed *)

Lemma mkdir_ok q fs fs' :
  FS.mkdir q fs = Ok fs' -> fs !! q = None /\ fs' = <[q := Dir]> fs.
Proof.
  unfold FS.mkdir. intros H. bind_ok H.
  destruct (fs !! q); by simplify_eq.
Qed.

Lemma open_w_ok q fs fs' :
  FS.open_w q fs = Ok fs' -> fs' = <[q := File ""]> fs.
Proof.
  unfold FS.open_w. intros H. bind_ok H.
  destruct (fs !! q) as [[|?]|]; by simplify_eq.
Qed.

Lemma write_ok q text fs fs' :
  FS.write q text fs = Ok fs' ->
  exists s0, fs !! q = Some (File s0)
             /\ fs' = <[q := File (s0 +:+ text)]> fs.
Proof.
  unfold FS.write. intros H.
  destruct (fs !! q) as [[|s0]|]; simplify_eq. eauto.
Qed.

Lemma read_ok q fs text :
  FS.read q fs = Ok text -> fs !! q = Some (File text).
Proof.
  unfold FS.read. intros H. destruct (fs !! q) as [[|s0]|]; by simplify_eq.
Qed.

(** ** The emitted tree *)

Section EmittedTree.

Variable substitute : string -> string -> string -> string -> py string.
Variable template_text : string.

Lemma write_class_effect pn sub c fs fs' :
  Str.slice_to 3 c = "Qgs" ->
  write_class substitute template_text pn sub c fs = Ok fs' ->
  exists text s0,
    substitute template_text pn sub c = Ok text
    /\ fs !! index_of (subgroup_dir pn sub) = Some (File s0)
    /\ fs' = <[index_of (subgroup_dir pn sub) := File (s0 +:+ class_line c)]>
               (<[class_path pn sub c := File (text +:+ Str.nl)]> fs).
Proof.
  intros Hq H. unfold write_class in H.
  apply py_bind_ok in H as (text & Htext & H).
  apply py_bind_ok in H as (fs1 & ->%open_w_ok & H).
  apply py_bind_ok in H as (fs2 & (s1 & Hs1 & ->)%write_ok & H).
  apply write_ok in H as (s0 & Hs0 & ->).
  rewrite lookup_insert_eq in Hs1. injection Hs1 as <-.
  rewrite insert_insert_eq in Hs0 |- *.
  rewrite lookup_insert_ne in Hs0 by (by apply class_path_index_ne).
  exists text, s0. done.
Qed.

Lemma class_loop_effect pn sub classes fs fs' s0 :
  for_each (emit_class substitute template_text pn sub) classes fs = Ok fs' ->
  fs !! index_of (subgroup_dir pn sub) = Some (File s0) ->
  (forall p,
      p ≠ index_of (subgroup_dir pn sub) ->
      (forall c, c ∈ classes -> Str.slice_to 3 c = "Qgs" ->
                 p ≠ class_path pn sub c) ->
      fs' !! p = fs !! p)
  /\ fs' !! index_of (subgroup_dir pn sub)
     = Some (File (s0 +:+ join (class_line <$>
                     filter (fun c => Str.slice_to 3 c = "Qgs") classes)))
  /\ forall c, c ∈ classes -> Str.slice_to 3 c = "Qgs" ->
       exists text,
         substitute template_text pn sub c = Ok text
         /\ fs' !! class_path pn sub c = Some (File (text +:+ Str.nl)).
Proof.
  revert fs s0. induction classes as [|c cl IH]; intros fs s0 H Hs0.
  - injection H as <-. split_and!; [done| |].
    + by rewrite append_nil_r.
    + intros c Hc. by apply elem_of_nil in Hc.
  - cbn [for_each] in H. apply py_bind_ok in H as (fs1 & Hc & H).
    unfold emit_class in Hc.
    destruct (decide (Str.slice_to 3 c ≠ "Qgs")) as [Hn|Hq].
    + injection Hc as <-. destruct (IH _ _ H Hs0) as (Hfr & HS & HL).
      split_and!.
      * intros p Hp Hpc. apply Hfr; [done|]. intros c' Hc'. apply Hpc.
        by right.
      * by rewrite filter_cons, decide_False.
      * intros c' [->|Hc']%elem_of_cons Hq'; [done|]. by apply HL.
    + apply dec_stable in Hq.
      apply write_class_effect in Hc as (text & s1 & Htext & Hs1 & ->);
        [|done].
      rewrite Hs0 in Hs1. injection Hs1 as <-.
      pose proof (class_path_index_ne pn sub c Hq) as Hne.
      destruct (IH _ _ H (lookup_insert_eq _ _ _)) as (Hfr & HS & HL).
      split_and!.
      * intros p Hp Hpc. rewrite Hfr.
        -- rewrite !lookup_insert_ne; [done| |done].
           intros <-. by eapply Hpc; [left|..].
        -- done.
        -- intros c' Hc'. apply Hpc. by right.
      * rewrite HS, filter_cons, decide_True by done. cbn [fmap list_fmap join foldr].
        by rewrite append_assoc.
      * intros c' Hc' Hq'. destruct (decide (c' ∈ cl)) as [Hin|Hnin].
        { by apply HL. }
        apply elem_of_cons in Hc' as [->|?]; [|done].
        exists text. split; [done|]. rewrite Hfr.
        -- rewrite lookup_insert_ne by done. apply lookup_insert_eq.
        -- done.
        -- intros c' Hc' _ ->%class_path_inj. done.
Qed.

Lemma within_child_self d x : ~ within (child d x) d.
Proof.
  rewrite within_spec. unfold child. intros (r & H & _).
  rewrite append_assoc in H. rewrite <-(append_nil_r d) in H at 1.
  by apply (inj (String.append d)) in H.
Qed.

Lemma index_not_within_sibling d x p :
  slash_free x = true -> x ≠ "index.rst" ->
  within (child d x) p -> p ≠ child d "index.rst".
Proof.
  intros Hx Hne Hp ->.
  by apply (siblings_disjoint d x "index.rst" (child d "index.rst")); 
    [..|apply within_refl].
Qed.

Lemma subgroup_emitted_stable pn sub classes fs fs' :
  subgroup_emitted substitute template_text pn sub classes fs ->
  (forall p, within (subgroup_dir pn sub) p -> fs' !! p = fs !! p) ->
  subgroup_emitted substitute template_text pn sub classes fs'.
Proof.
  intros (Hd & Hi & Hl) Hsame. split_and!.
  - rewrite Hsame; [done|apply within_refl].
  - rewrite Hsame; [done|]. rewrite index_of_child. apply within_child.
  - intros c Hc Hq. destruct (Hl c Hc Hq) as (text & ? & ?).
    exists text. split; [done|]. rewrite Hsame; [done|].
    rewrite class_path_child. apply within_child.
Qed.

Lemma emit_subgroup_effect pn sub classes fs fs' p0 :
  slash_free sub = true -> sub ≠ "index.rst" ->
  emit_subgroup substitute template_text pn (sub, classes) fs = Ok fs' ->
  fs !! index_of (package_dir pn) = Some (File p0) ->
  (forall p, p ≠ index_of (package_dir pn) ->
             ~ within (subgroup_dir pn sub) p -> fs' !! p = fs !! p)
  /\ fs' !! index_of (package_dir pn) = Some (File (p0 +:+ index_line sub))
  /\ subgroup_emitted substitute template_text pn sub classes fs'.
Proof.
  intros Hsf Hni H Hp0. unfold emit_subgroup in H.
  apply py_bind_ok in H as (fs1 & (s & Hs & ->)%write_ok & H).
  rewrite Hp0 in Hs. injection Hs as <-.
  apply py_bind_ok in H as (fs2 & [_ ->]%mkdir_ok & H).
  apply py_bind_ok in H as (fs3 & ->%open_w_ok & H).
  apply py_bind_ok in H as (fs4 & (s & Hs & ->)%write_ok & H).
  rewrite lookup_insert_eq in Hs. injection Hs as <-.
  rewrite insert_insert_eq in H.
  apply class_loop_effect with (s0 := Str.replace "SUBGROUPNAME" sub
                                        sub_group_header) in H
    as (Hfr & HS & HL); [|apply lookup_insert_eq].
  set (P := index_of (package_dir pn)) in *.
  set (SD := subgroup_dir pn sub) in *.
  set (S := index_of SD) in *.
  assert (within SD S) as HwS by apply within_child.
  assert (forall c, within SD (class_path pn sub c)) as HwL.
  { intros c. rewrite class_path_child. apply within_child. }
  assert (forall p, within SD p -> p ≠ P) as HP.
  { intros p Hp. by apply (index_not_within_sibling (package_dir pn) sub). }
  assert (S ≠ SD) as HSSD by apply child_ne_self.
  assert (forall c, SD ≠ class_path pn sub c) as HSDL.
  { intros c. rewrite class_path_child. intros H'. symmetry in H'.
    by apply child_ne_self in H'. }
  split_and!.
  - intros p HpP Hpw.
    rewrite Hfr; [|by intros ->|intros c _ _ ->; by apply Hpw].
    rewrite lookup_insert_ne by (intros <-; by apply Hpw).
    rewrite lookup_insert_ne by (intros <-; apply Hpw, within_refl).
    by rewrite lookup_insert_ne by (by intros <-).
  - rewrite Hfr;
      [|intros H'; by apply (HP _ HwS)
       |intros c _ _ H'; by apply (HP _ (HwL c))].
    rewrite lookup_insert_ne by (by apply HP).
    rewrite lookup_insert_ne by (apply HP, within_refl).
    apply lookup_insert_eq.
  - split_and!; [|done..].
    rewrite Hfr; [|done|by intros c _ _].
    rewrite lookup_insert_ne by done. apply lookup_insert_eq.
Qed.

End EmittedTree.

(** A loop over the entries of a directory [d], each step of which adds a
    line to the index of [d] and otherwise works inside the entry's own
    sub-directory: the index collects the lines in order and what a step
    has set up in its sub-directory is still there at the end. *)
Lemma for_each_regions {B} (body : string * B -> FS.t -> py FS.t)
    (d : string) (Q : string * B -> FS.t -> Prop) (l : list (string * B)) :
  NoDup l.*1 ->
  (forall x, x ∈ l -> slash_free x.1 = true /\ x.1 ≠ "index.rst") ->
  (forall x fs fs' s0,
      x ∈ l -> body x fs = Ok fs' ->
      fs !! child d "index.rst" = Some (File s0) ->
      (forall p, p ≠ child d "index.rst" -> ~ within (child d x.1) p ->
                 fs' !! p = fs !! p)
      /\ fs' !! child d "index.rst" = Some (File (s0 +:+ index_line x.1))
      /\ Q x fs') ->
  (forall x fs fs',
      Q x fs -> (forall p, within (child d x.1) p -> fs' !! p = fs !! p) ->
      Q x fs') ->
  forall fs fs' s0,
    for_each body l fs = Ok fs' ->
    fs !! child d "index.rst" = Some (File s0) ->
    (forall p, p ≠ child d "index.rst" ->
               (forall x, x ∈ l -> ~ within (child d x.1) p) ->
               fs' !! p = fs !! p)
    /\ fs' !! child d "index.rst"
       = Some (File (s0 +:+ join (index_line <$> l.*1)))
    /\ forall x, x ∈ l -> Q x fs'.
Proof.
  intros Hnd Hkeys Hbody Hstable.
  induction l as [|x l IH]; intros fs fs' s0 H Hs0.
  - injection H as <-. split_and!; [done| |].
    + by rewrite append_nil_r.
    + intros x Hx. by apply elem_of_nil in Hx.
  - cbn [for_each] in H. apply py_bind_ok in H as (fs1 & Hx & H).
    apply NoDup_cons in Hnd as [Hxl Hnd].
    destruct (Hbody x fs fs1 s0 ltac:(left) Hx Hs0) as (Hfr1 & Hq1 & HQ1).
    destruct (IH Hnd) with (fs := fs1) (fs' := fs') (s0 := s0 +:+ index_line x.1)
      as (Hfr & Hq & HQ); [| |done|done|].
    { intros y Hy. apply Hkeys. by right. }
    { intros y ? ? ? Hy. apply Hbody. by right. }
    split_and!.
    + intros p Hp Hpw. rewrite Hfr, Hfr1; [done|done| |done|].
      * apply Hpw. left.
      * intros y Hy. apply Hpw. by right.
    + rewrite Hq. cbn [fmap list_fmap join foldr]. by rewrite append_assoc.
    + intros y [->|Hy]%elem_of_cons; [|by apply HQ].
      apply Hstable with fs1; [done|]. intros p Hp.
      destruct (Hkeys x ltac:(left)) as [Hsf Hni].
      apply Hfr.
      * by apply index_not_within_sibling with x.1.
      * intros y Hy Hpy. destruct (Hkeys y ltac:(by right)) as [Hsfy _].
        apply (siblings_disjoint d x.1 y.1 p); [done..| |done|done].
        intros Heq. apply Hxl. rewrite Heq.
        apply list_elem_of_fmap. eauto.
Qed.

Section EmittedPackages.

Variable substitute : string -> string -> string -> string -> py string.
Variable template_text : string.

Lemma package_emitted_stable pn listing fs fs' :
  package_emitted substitute template_text pn listing fs ->
  (forall p, within (package_dir pn) p -> fs' !! p = fs !! p) ->
  package_emitted substitute template_text pn listing fs'.
Proof.
  intros (res & Hres & Hd & Hi & Hs) Hsame. exists res. split_and!.
  - done.
  - rewrite Hsame; [done|apply within_refl].
  - rewrite Hsame; [done|]. rewrite index_of_child. apply within_child.
  - intros sub classes Hin.
    apply subgroup_emitted_stable with fs; [by apply Hs|].
    intros p Hp. apply Hsame. eapply within_trans; [|done].
    rewrite subgroup_dir_child. apply within_child.
Qed.

Lemma filed_key_shape ks classes sub (v : list string) :
  (forall k, k ∈ ks -> k = "other" \/ spec_word k = true) ->
  (sub, v) ∈ filed ks classes ->
  slash_free sub = true /\ sub ≠ "index.rst".
Proof.
  intros Hks [Hk _]%filed_elem_of. destruct (Hks _ Hk) as [->|Hw].
  - done.
  - split; [by apply spec_word_slash_free | by apply spec_word_not_index].
Qed.

Lemma keys_shape classes k :
  k ∈ promoted classes ++ ["other"] -> k = "other" \/ spec_word k = true.
Proof.
  intros [Hk|Hk%list_elem_of_singleton]%elem_of_app; [right|by left].
  apply promoted_token in Hk as (c & _ & Hc). by eapply token_of_word.
Qed.

Lemma emit_package_effect pn listing fs fs' r0 :
  slash_free pn = true -> pn ≠ "index.rst" ->
  emit_package substitute template_text (pn, listing) fs = Ok fs' ->
  fs !! "api/index.rst" = Some (File r0) ->
  (forall p, p ≠ "api/index.rst" -> ~ within (package_dir pn) p ->
             fs' !! p = fs !! p)
  /\ fs' !! "api/index.rst" = Some (File (r0 +:+ index_line pn))
  /\ package_emitted substitute template_text pn listing fs'.
Proof.
  intros Hsf Hni H Hr0. unfold emit_package in H.
  apply py_bind_ok in H as (res & Hres & H).
  apply py_bind_ok in H as (fs1 & [_ ->]%mkdir_ok & H).
  apply py_bind_ok in H as (fs2 & (s & Hs & ->)%write_ok & H).
  set (PD := package_dir pn) in *.
  set (P := index_of PD) in *.
  assert (forall p, within PD p -> p ≠ "api/index.rst") as HR.
  { intros p Hp. by apply (index_not_within_sibling "api" pn). }
  assert (P ≠ PD) as HPPD by apply child_ne_self.
  assert (within PD P) as HwP by apply within_child.
  rewrite lookup_insert_ne in Hs by (apply HR, within_refl).
  rewrite Hr0 in Hs. injection Hs as <-.
  apply py_bind_ok in H as (fs3 & ->%open_w_ok & H).
  apply py_bind_ok in H as (fs4 & (s & Hs & ->)%write_ok & H).
  rewrite lookup_insert_eq in Hs. injection Hs as <-.
  rewrite insert_insert_eq in H.
  pose proof Hres as Hfiled. rewrite extract_eq in Hfiled.
  injection Hfiled as Hfiled.
  apply (for_each_regions _ PD
           (fun x => subgroup_emitted substitute template_text pn x.1 x.2))
    with (s0 := Str.replace "PACKAGENAME" pn package_header) in H
    as (Hfr & Hq & HQ).
  - split_and!.
    + intros p Hp Hpw. rewrite Hfr.
      * rewrite lookup_insert_ne by (intros <-; by apply Hpw).
        rewrite lookup_insert_ne by done.
        by rewrite lookup_insert_ne by (intros <-; apply Hpw, within_refl).
      * intros ->. by apply Hpw.
      * intros x _ Hx. apply Hpw. eapply within_trans; [|done].
        apply within_child.
    + rewrite Hfr.
      * rewrite lookup_insert_ne by (by apply HR).
        apply lookup_insert_eq.
      * intros H'. by apply (HR _ HwP).
      * intros x _ Hx. apply (HR "api/index.rst"); [|done].
        eapply within_trans; [|done]. apply within_child.
    + exists res. split_and!; [done| |done|].
      * rewrite Hfr.
        -- rewrite lookup_insert_ne by done.
           rewrite lookup_insert_ne
             by (intros H'; by apply (HR _ (within_refl PD))).
           apply lookup_insert_eq.
        -- done.
        -- intros x _ Hx. by apply within_child_self in Hx.
      * intros sub classes Hin. by apply (HQ (sub, classes)).
  - rewrite <-Hfiled. fold (OD.keys (filed (promoted listing ++ ["other"]) listing)).
    rewrite filed_keys. apply keys_nodup.
  - intros [sub v] Hx. rewrite <-Hfiled in Hx.
    eapply filed_key_shape; [|done]. apply keys_shape.
  - intros [sub v] fsa fsb s0 Hx Hbody Hs0.
    assert (slash_free sub = true /\ sub ≠ "index.rst") as [? ?].
    { rewrite <-Hfiled in Hx. eapply filed_key_shape; [|done].
      apply keys_shape. }
    by apply emit_subgroup_effect.
  - intros [sub v] fsa fsb HQ Hsame. cbn [fst snd] in *.
    by apply subgroup_emitted_stable with fsa.
  - apply lookup_insert_eq.
Qed.

End EmittedPackages.

Lemma packages_names dc dg da :
  (packages dc dg da).*1 = ["core"; "gui"; "analysis"].
Proof. done. Qed.

Lemma packages_name_shape dc dg da x :
  x ∈ packages dc dg da -> slash_free x.1 = true /\ x.1 ≠ "index.rst".
Proof.
  unfold packages, limit. cbn [negb].
  intros Hx. repeat (apply elem_of_cons in Hx as [->|Hx]);
    [done..|by apply elem_of_nil in Hx].
Qed.

Lemma populate_effect dc dg da substitute fs fs' :
  populate dc dg da substitute fs = Ok fs' ->
  exists template_text,
    fs !! "rst/qgis_pydoc_template.txt" = Some (File template_text)
    /\ (forall p, p ≠ "api/index.rst" ->
                  (forall x, x ∈ packages dc dg da ->
                             ~ within (package_dir x.1) p) ->
                  fs' !! p = fs !! p)
    /\ fs' !! "api/index.rst"
       = Some (File (document_header
                     +:+ join (index_line <$> ["core"; "gui"; "analysis"])
                     +:+ document_footer))
    /\ forall pn listing,
         (pn, listing) ∈ packages dc dg da ->
         package_emitted substitute template_text pn listing fs'.
Proof.
  unfold populate. intros H.
  apply py_bind_ok in H as (fs1 & ->%open_w_ok & H).
  apply py_bind_ok in H as (fs2 & (s & Hs & ->)%write_ok & H).
  rewrite lookup_insert_eq in Hs. injection Hs as <-.
  rewrite insert_insert_eq in H.
  apply py_bind_ok in H as (template_text & Htpl%read_ok & H).
  rewrite lookup_insert_ne in Htpl by done.
  apply py_bind_ok in H as (fs5 & Hloop & H).
  apply write_ok in H as (s & Hs & ->).
  apply (for_each_regions _ "api"
           (fun x => package_emitted substitute template_text x.1 x.2))
    with (s0 := document_header) in Hloop as (Hfr & Hq & HQ).
  - change (child "api" "index.rst") with "api/index.rst" in *.
    rewrite Hq in Hs. injection Hs as <-.
    exists template_text. split_and!; [done| | |].
    + intros p Hp Hpw. rewrite lookup_insert_ne by done.
      rewrite Hfr by done. by rewrite lookup_insert_ne.
    + rewrite lookup_insert_eq. by vm_compute.
    + intros pn listing Hin.
      apply package_emitted_stable with fs5; [by apply (HQ (pn, listing))|].
      intros p Hp. apply lookup_insert_ne. intros <-.
      destruct (packages_name_shape _ _ _ _ Hin) as [? ?].
      by apply (index_not_within_sibling "api" pn "api/index.rst").
  - rewrite packages_names. by apply (bool_decide_unpack _).
  - apply packages_name_shape.
  - intros [pn listing] fsa fsb s0 Hx Hbody Hs0.
    destruct (packages_name_shape _ _ _ _ Hx) as [? ?].
    by apply emit_package_effect.
  - intros [pn listing] fsa fsb HQ Hsame.
    by apply package_emitted_stable with fsa.
  - apply lookup_insert_eq.
Qed.

Lemma template_outside_trees fs :
  (<["api" := Dir]> (FS.rmtree "api" (FS.rmtree "build" fs)))
    !! "rst/qgis_pydoc_template.txt"
  = fs !! "rst/qgis_pydoc_template.txt".
Proof.
  rewrite lookup_insert_ne by done. by rewrite !rmtree_lookup_other.
Qed.

(** What a successful run leaves below [api]. *)
Lemma generate_docs_tree dc dg da substitute fs0 fs' :
  generate_docs dc dg da substitute fs0 = Ok fs' ->
  exists template_text,
    fs0 !! "rst/qgis_pydoc_template.txt" = Some (File template_text)
    /\ fs' !! "api/index.rst"
       = Some (File (document_header
                     +:+ join (index_line <$> ["core"; "gui"; "analysis"])
                     +:+ document_footer))
    /\ forall pn listing,
         (pn, listing) ∈ packages dc dg da ->
         package_emitted substitute template_text pn listing fs'.
Proof.
  intros [_ H]%generate_docs_cleared. cbn zeta in H.
  apply populate_effect in H as (template_text & Htpl & _ & Hroot & Hpk).
  rewrite template_outside_trees in Htpl. eauto.
Qed.

Lemma members_sentinel classes res sub (v : list string) :
  extract_package_subgroups classes = Ok res ->
  (sub, v) ∈ res ->
  forall c, c ∈ v -> Str.slice_to 3 c = "Qgs".
Proof.
  rewrite extract_eq. intros [= <-] Hin c Hc.
  destruct (filed_member _ _ _ _ _ Hin Hc) as [_ Hb].
  apply bucket_token in Hb as [t Ht]. by apply token_of_sentinel in Ht.
Qed.

Lemma filter_all {A} (P : A -> Prop) `{!forall x, Decision (P x)} (l : list A) :
  (forall x, x ∈ l -> P x) -> filter P l = l.
Proof.
  induction l as [|x l IH]; intros Hall; [done|].
  rewrite filter_cons, decide_True by (apply Hall; left).
  f_equal. apply IH. intros y Hy. apply Hall. by right.
Qed.

Lemma sample_run :
  generate_docs sample_core [] [] sample_substitute sample_fs
  = Ok sample_result.
Proof.
  vm_cast_no_check
    (eq_refl (generate_docs sample_core [] [] sample_substitute sample_fs)).
Qed.

Lemma not_within d p : ~ within d p -> p ≠ d /\ FS.under d p = false.
Proof.
  unfold within. intros H. split; [tauto|].
  destruct (FS.under d p); [tauto|done].
Qed.

Lemma cleared_api fs :
  (forall c, fs !! "api" ≠ Some (File c)) ->
  FS.rmtree "api" (FS.rmtree "build" fs) !! "api" = None.
Proof.
  intros Hfile. rewrite rmtree_lookup. case_decide as Hd; [done|].
  rewrite rmtree_lookup_other in Hd |- * by done.
  destruct (fs !! "api") as [[|c]|] eqn:E; [|by destruct (Hfile c)|done].
  destruct Hd. auto.
Qed.

Lemma cleared_below_api fs p :
  api_rooted fs -> FS.under "api" p = true ->
  FS.rmtree "api" (FS.rmtree "build" fs) !! p = None.
Proof.
  intros Hwf Hp. rewrite rmtree_lookup. case_decide as Hd; [done|].
  rewrite rmtree_lookup_other in Hd by done.
  rewrite rmtree_lookup. case_decide; [done|].
  destruct (fs !! p) as [x|] eqn:E; [|done].
  destruct Hd. split; [|auto]. apply Hwf with p; eauto.
Qed.

Lemma py_bind_Ok {A B} (a : A) (k : A -> py B) : Ok a ≫= k = k a.
Proof. done. Qed.

Lemma open_w_succeeds q d fs :
  FS.parent q = Some d -> fs !! d = Some Dir -> fs !! q ≠ Some Dir ->
  FS.open_w q fs = Ok (<[q := File ""]> fs).
Proof.
  intros Hp Hd Hq. unfold FS.open_w, FS.check_parent. rewrite Hp, Hd.
  rewrite py_bind_Ok. by destruct (fs !! q) as [[|?]|].
Qed.

Lemma write_succeeds q text s0 fs :
  fs !! q = Some (File s0) ->
  FS.write q text fs = Ok (<[q := File (s0 +:+ text)]> fs).
Proof. intros Hq. unfold FS.write. by rewrite Hq. Qed.

(** ** Properties of the emitted tree *)

(** After a successful run the root index holds the fixed header, one line
    for each of the packages core, gui and analysis in this order, and the
    fixed footer. *)
Theorem root_index_lists_packages dc dg da substitute fs0 fs' :
  generate_docs dc dg da substitute fs0 = Ok fs' ->
  fs' !! "api/index.rst"
  = Some (File (document_header
                +:+ index_line "core" +:+ index_line "gui"
                +:+ index_line "analysis" +:+ document_footer)).
Proof. intros (tpl & _ & Hroot & _)%generate_docs_tree. exact Hroot. Qed.

Lemma root_index_lists_packages_witness :
  sample_result !! "api/index.rst"
  = Some (File (document_header
                +:+ index_line "core" +:+ index_line "gui"
                +:+ index_line "analysis" +:+ document_footer)).
Proof.
  apply (root_index_lists_packages sample_core [] [] sample_substitute
           sample_fs).
  vm_cast_no_check
    (eq_refl (generate_docs sample_core [] [] sample_substitute sample_fs)).
Defined.

(** After a successful run the index of each package holds the package
    header with the package's name put in, followed by one line for each
    subgroup extracted from the package's listing, in the order of the
    keys of the extraction result. *)
Theorem package_index_lists_subgroups
    dc dg da substitute fs0 fs' pn listing res :
  generate_docs dc dg da substitute fs0 = Ok fs' ->
  (pn, listing) ∈ packages dc dg da ->
  extract_package_subgroups listing = Ok res ->
  fs' !! index_of (package_dir pn)
  = Some (File (Str.replace "PACKAGENAME" pn package_header
                +:+ join (index_line <$> OD.keys res))).
Proof.
  intros (tpl & _ & _ & Hpk)%generate_docs_tree Hin Hres.
  destruct (Hpk _ _ Hin) as (res' & Hres' & _ & Hindex & _).
  rewrite Hres in Hres'. by injection Hres' as <-.
Qed.

Lemma package_index_lists_subgroups_witness :
  sample_result !! index_of (package_dir "core")
  = Some (File (Str.replace "PACKAGENAME" "core" package_header
                +:+ join (index_line <$> ["Composer"; "other"]))).
Proof.
  apply (package_index_lists_subgroups sample_core [] [] sample_substitute
           sample_fs sample_result "core" sample_core
           [("Composer", ["QgsComposerItem"; "QgsComposerView"]);
            ("other", ["QgsRasterLayer"])]).
  - vm_cast_no_check
      (eq_refl (generate_docs sample_core [] [] sample_substitute sample_fs)).
  - apply list_elem_of_In. simpl. auto.
  - vm_compute. reflexivity.
Defined.

(** After a successful run the index of each subgroup holds the subgroup
    header with the subgroup's label put in, followed by one line for each
    member of the subgroup, in the order of the member list. *)
Theorem subgroup_index_lists_members
    dc dg da substitute fs0 fs' pn listing res sub members :
  generate_docs dc dg da substitute fs0 = Ok fs' ->
  (pn, listing) ∈ packages dc dg da ->
  extract_package_subgroups listing = Ok res ->
  (sub, members) ∈ res ->
  fs' !! index_of (subgroup_dir pn sub)
  = Some (File (Str.replace "SUBGROUPNAME" sub sub_group_header
                +:+ join (class_line <$> members))).
Proof.
  intros (tpl & _ & _ & Hpk)%generate_docs_tree Hin Hres Hsub.
  destruct (Hpk _ _ Hin) as (res' & Hres' & _ & _ & Hsubs).
  rewrite Hres in Hres'. injection Hres' as <-.
  destruct (Hsubs _ _ Hsub) as (_ & Hindex & _).
  rewrite filter_all in Hindex; [done|].
  by eapply members_sentinel.
Qed.

Lemma subgroup_index_lists_members_witness :
  sample_result !! index_of (subgroup_dir "core" "Composer")
  = Some (File (Str.replace "SUBGROUPNAME" "Composer" sub_group_header
                +:+ join (class_line <$>
                            ["QgsComposerItem"; "QgsComposerView"]))).
Proof.
  apply (subgroup_index_lists_members sample_core [] [] sample_substitute
           sample_fs sample_result "core" sample_core
           [("Composer", ["QgsComposerItem"; "QgsComposerView"]);
            ("other", ["QgsRasterLayer"])]).
  - vm_cast_no_check
      (eq_refl (generate_docs sample_core [] [] sample_substitute sample_fs)).
  - apply list_elem_of_In. simpl. auto.
  - vm_compute. reflexivity.
  - apply list_elem_of_In. simpl. auto.
Defined.



(** After a successful run [api], the directory of each package and the
    directory of each extracted subgroup are directories. *)
Theorem directories_created
    dc dg da substitute fs0 fs' pn listing res sub members :
  generate_docs dc dg da substitute fs0 = Ok fs' ->
  (pn, listing) ∈ packages dc dg da ->
  extract_package_subgroups listing = Ok res ->
  (sub, members) ∈ res ->
  fs' !! "api" = Some Dir
  /\ fs' !! package_dir pn = Some Dir
  /\ fs' !! subgroup_dir pn sub = Some Dir.
Proof.
  intros Hrun Hin Hres Hsub. split.
  - apply generate_docs_cleared in Hrun as [_ Hpop]. cbn zeta in Hpop.
    rewrite (populate_outside _ _ _ _ _ _ Hpop) by done.
    apply lookup_insert_eq.
  - apply generate_docs_tree in Hrun as (tpl & _ & _ & Hpk).
    destruct (Hpk _ _ Hin) as (res' & Hres' & Hdir & _ & Hsubs).
    rewrite Hres in Hres'. injection Hres' as <-.
    split; [done|]. by destruct (Hsubs _ _ Hsub) as (? & _).
Qed.

Lemma directories_created_witness :
  sample_result !! "api" = Some Dir
  /\ sample_result !! package_dir "core" = Some Dir
  /\ sample_result !! subgroup_dir "core" "other" = Some Dir.
Proof.
  apply (directories_created sample_core [] [] sample_substitute
           sample_fs sample_result "core" sample_core
           [("Composer", ["QgsComposerItem"; "QgsComposerView"]);
            ("other", ["QgsRasterLayer"])]
           "other" ["QgsRasterLayer"]).
  - vm_cast_no_check
      (eq_refl (generate_docs sample_core [] [] sample_substitute sample_fs)).
  - apply list_elem_of_In. simpl. auto.
  - vm_compute. reflexivity.
  - apply list_elem_of_In. simpl. auto.
Defined.

(** A successful run changes nothing outside the trees [build] and [api]. *)
Theorem run_leaves_rest_untouched dc dg da substitute fs0 fs' p :
  generate_docs dc dg da substitute fs0 = Ok fs' ->
  ~ within "api" p -> ~ within "build" p ->
  fs' !! p = fs0 !! p.
Proof.
  intros [_ Hpop]%generate_docs_cleared [Hp1 Hu1]%not_within
    [Hp2 Hu2]%not_within.
  cbn zeta in Hpop. rewrite (populate_outside _ _ _ _ _ _ Hpop) by done.
  rewrite lookup_insert_ne by done. by rewrite !rmtree_lookup_other.
Qed.

Lemma run_leaves_rest_untouched_witness :
  sample_result !! "rst/qgis_pydoc_template.txt"
  = sample_fs !! "rst/qgis_pydoc_template.txt".
Proof.
  apply (run_leaves_rest_untouched sample_core [] [] sample_substitute).
  - vm_cast_no_check
      (eq_refl (generate_docs sample_core [] [] sample_substitute sample_fs)).
  - intros [H|H]; vm_compute in H; discriminate.
  - intros [H|H]; vm_compute in H; discriminate.
Defined.

(** When [build] is a directory, a successful run removes it with
    everything below it. *)
Theorem build_tree_removed dc dg da substitute fs0 fs' p :
  generate_docs dc dg da substitute fs0 = Ok fs' ->
  fs0 !! "build" = Some Dir ->
  within "build" p ->
  fs' !! p = None.
Proof.
  intros [_ Hpop]%generate_docs_cleared Hb Hp. cbn zeta in Hpop.
  assert (p ≠ "api" /\ FS.under "api" p = false) as [Hne Hu].
  { apply within_spec in Hp as (r & -> & _). split; [done|]. by destruct r. }
  rewrite (populate_outside _ _ _ _ _ _ Hpop) by done.
  rewrite lookup_insert_ne by done. rewrite rmtree_lookup_other by done.
  rewrite rmtree_lookup. apply decide_True. split; [done|].
  destruct Hp; auto.
Qed.

Lemma build_tree_removed_witness : stale_result !! "build/html" = None.
Proof.
  apply (build_tree_removed sample_core [] [] sample_substitute stale_fs).
  - vm_cast_no_check
      (eq_refl (generate_docs sample_core [] [] sample_substitute stale_fs)).
  - reflexivity.
  - right. reflexivity.
Defined.

(** When [api] is a regular file the run fails with [FileExistsError]:
    [rmtree] leaves the file alone and [mkdir] refuses to replace it. *)
Theorem api_regular_file_fails dc dg da substitute fs0 content :
  fs0 !! "api" = Some (File content) ->
  generate_docs dc dg da substitute fs0 = Raise FileExistsError.
Proof.
  intros Hapi. unfold generate_docs.
  assert (FS.rmtree "build" fs0 !! "api" = Some (File content)) as Ha
    by (by rewrite rmtree_lookup_other).
  rewrite (rmtree_not_dir "api") by (by rewrite Ha).
  unfold FS.mkdir. cbn. by rewrite Ha.
Qed.

Lemma api_regular_file_fails_witness :
  generate_docs sample_core [] [] sample_substitute
    (<["api" := File "notes"]> sample_fs)
  = Raise FileExistsError.
Proof.
  apply (api_regular_file_fails _ _ _ _ _ "notes"). reflexivity.
Defined.



(** A successful run leaves nothing below [api] but the root index and
    what lies in the three package directories: whatever else an earlier
    run or anybody else had put there is gone. *)
Theorem stale_output_discarded dc dg da substitute fs0 fs' p :
  api_rooted fs0 ->
  generate_docs dc dg da substitute fs0 = Ok fs' ->
  FS.under "api" p = true ->
  p ≠ "api/index.rst" ->
  ~ within "api/core" p -> ~ within "api/gui" p -> ~ within "api/analysis" p ->
  fs' !! p = None.
Proof.
  intros Hwf [_ Hpop]%generate_docs_cleared Hu Hne Hc Hg Ha.
  cbn zeta in Hpop.
  apply populate_effect in Hpop as (tpl & _ & Hfr & _).
  rewrite Hfr.
  - rewrite lookup_insert_ne by (intros <-; by vm_compute in Hu).
    by apply cleared_below_api.
  - done.
  - intros x Hx. unfold packages, limit in Hx. cbn [negb] in Hx.
    repeat (apply elem_of_cons in Hx as [->|Hx]);
      [done..|by apply elem_of_nil in Hx].
Qed.

Lemma stale_output_discarded_witness : stale_result !! "api/old.rst" = None.
Proof.
  apply (stale_output_discarded sample_core [] [] sample_substitute stale_fs).
  - intros p _ _. reflexivity.
  - vm_cast_no_check
      (eq_refl (generate_docs sample_core [] [] sample_substitute stale_fs)).
  - reflexivity.
  - discriminate.
  - intros [H|H]; vm_compute in H; discriminate.
  - intros [H|H]; vm_compute in H; discriminate.
  - intros [H|H]; vm_compute in H; discriminate.
Defined.

(** The headers of the package and subgroup indexes name the package or
    subgroup on the title line and on the caption line, whatever the name
    is. *)
Theorem headers_name_their_directory name :
  Str.replace "PACKAGENAME" name package_header
  = Str.nl +:+ Str.nl +:+ name +:+ Str.nl
    +:+ "===================================" +:+ Str.nl +:+ Str.nl
    +:+ ".. toctree::" +:+ Str.nl
    +:+ "   :maxdepth: 2" +:+ Str.nl
    +:+ "   :caption: " +:+ name +:+ ":" +:+ Str.nl +:+ Str.nl
  /\ Str.replace "SUBGROUPNAME" name sub_group_header
     = Str.nl +:+ name +:+ Str.nl
       +:+ "-----------------------------------" +:+ Str.nl +:+ Str.nl
       +:+ ".. toctree::" +:+ Str.nl
       +:+ "   :maxdepth: 1" +:+ Str.nl
       +:+ "   :caption: " +:+ name +:+ ":" +:+ Str.nl +:+ Str.nl.
Proof. split; reflexivity. Qed.

(** ** When a run succeeds *)

Lemma parent_slash_free x : slash_free x = true -> FS.parent x = None.
Proof.
  induction x as [|c x IH]; [done|]. cbn.
  intros [Hc Hx]%andb_prop. rewrite IH by done.
  by destruct (Ascii.eqb c "/").
Qed.

Lemma parent_child d x :
  slash_free x = true -> FS.parent (child d x) = Some d.
Proof.
  intros Hx. unfold child. induction d as [|c d IH].
  - cbn. by rewrite parent_slash_free.
  - cbn in *. by rewrite IH.
Qed.

Lemma slash_free_app a b :
  slash_free a = true -> slash_free b = true -> slash_free (a +:+ b) = true.
Proof.
  intros Ha Hb. induction a as [|c a IH]; [done|]. cbn in *.
  apply andb_prop in Ha as [-> Ha]. by rewrite IH.
Qed.

Lemma mkdir_succeeds q d fs :
  FS.parent q = Some d -> fs !! d = Some Dir -> fs !! q = None ->
  FS.mkdir q fs = Ok (<[q := Dir]> fs).
Proof.
  intros Hp Hd Hq. unfold FS.mkdir, FS.check_parent.
  by rewrite Hp, Hd, py_bind_Ok, Hq.
Qed.

Section Success.

Variable substitute : string -> string -> string -> string -> py string.
Variable template_text : string.

#[local] Abbreviation renders := (renders substitute template_text).

Lemma write_class_succeeds pn sub c fs s0 :
  Str.slice_to 3 c = "Qgs" ->
  renders pn sub c ->
  fs !! subgroup_dir pn sub = Some Dir ->
  fs !! index_of (subgroup_dir pn sub) = Some (File s0) ->
  fs !! class_path pn sub c ≠ Some Dir ->
  exists fs', write_class substitute template_text pn sub c fs = Ok fs'.
Proof.
  intros Hq [Hsf [text Htext]] Hd Hs Hl. unfold write_class.
  rewrite Htext, py_bind_Ok.
  rewrite (open_w_succeeds _ (subgroup_dir pn sub)); [|rewrite class_path_child; by apply parent_child, slash_free_app|done..].
  rewrite py_bind_Ok.
  rewrite (write_succeeds _ _ "") by apply lookup_insert_eq.
  rewrite py_bind_Ok.
  rewrite (write_succeeds _ _ s0); [eauto|].
  rewrite !lookup_insert_ne by (by apply class_path_index_ne). done.
Qed.

Lemma class_loop_succeeds pn sub classes fs s0 :
  (forall c, c ∈ classes -> Str.slice_to 3 c = "Qgs" -> renders pn sub c) ->
  fs !! subgroup_dir pn sub = Some Dir ->
  fs !! index_of (subgroup_dir pn sub) = Some (File s0) ->
  (forall c, c ∈ classes -> Str.slice_to 3 c = "Qgs" ->
             fs !! class_path pn sub c ≠ Some Dir) ->
  exists fs',
    for_each (emit_class substitute template_text pn sub) classes fs = Ok fs'.
Proof.
  revert fs s0. induction classes as [|c cl IH]; intros fs s0 Hr Hd Hs Hl.
  - by exists fs.
  - cbn [for_each].
    destruct (decide (Str.slice_to 3 c ≠ "Qgs")) as [Hn|Hq].
    + assert (emit_class substitute template_text pn sub c fs = Ok fs) as ->.
      { unfold emit_class. cbv zeta. by rewrite decide_True. }
      rewrite py_bind_Ok. apply IH with s0; [|done..|].
      * intros c' Hc'. apply Hr. by right.
      * intros c' Hc'. apply Hl. by right.
    + assert (emit_class substitute template_text pn sub c fs
              = write_class substitute template_text pn sub c fs) as ->.
      { unfold emit_class. cbv zeta. by rewrite decide_False. }
      apply dec_stable in Hq.
      destruct (write_class_succeeds pn sub c fs s0) as [fs1 H1];
        [done|by apply Hr; [left|]|done|done|by apply Hl; [left|]|].
      rewrite H1, py_bind_Ok.
      apply write_class_effect in H1 as (text & s1 & _ & _ & ->); [|done].
      assert (index_of (subgroup_dir pn sub) ≠ subgroup_dir pn sub) as Hne1
        by apply child_ne_self.
      assert (class_path pn sub c ≠ subgroup_dir pn sub) as Hne2
        by (rewrite class_path_child; apply child_ne_self).
      apply IH with (s1 +:+ class_line c).
      * intros c' Hc'. apply Hr. by right.
      * by rewrite !lookup_insert_ne.
      * apply lookup_insert_eq.
      * intros c' Hc' Hq'.
        rewrite lookup_insert_ne by (apply not_eq_sym; by apply class_path_index_ne).
        destruct (decide (class_path pn sub c = class_path pn sub c')) as [<-|?].
        -- by rewrite lookup_insert_eq.
        -- rewrite lookup_insert_ne by done. apply Hl; [by right|done].
Qed.

Lemma emit_subgroup_succeeds pn sub classes fs p0 :
  slash_free sub = true -> sub ≠ "index.rst" ->
  (forall c, c ∈ classes -> Str.slice_to 3 c = "Qgs" -> renders pn sub c) ->
  fs !! package_dir pn = Some Dir ->
  fs !! index_of (package_dir pn) = Some (File p0) ->
  (forall p, within (subgroup_dir pn sub) p -> fs !! p = None) ->
  exists fs',
    emit_subgroup substitute template_text pn (sub, classes) fs = Ok fs'.
Proof.
  intros Hsf Hni Hr Hd Hp Hfresh. unfold emit_subgroup.
  set (PD := package_dir pn) in *.
  set (P := index_of PD) in *.
  set (SD := subgroup_dir pn sub) in *.
  set (S := index_of SD) in *.
  assert (within SD S) as HwS by apply within_child.
  assert (forall p, within SD p -> p ≠ P) as HP.
  { intros p Hw. by apply (index_not_within_sibling PD sub). }
  assert (forall p, within SD p -> P ≠ p) as HP'.
  { intros p Hw H'. by apply (HP p). }
  assert (P ≠ PD) as HPPD by apply child_ne_self.
  assert (SD ≠ PD) as HSDPD
    by (unfold SD, PD; rewrite subgroup_dir_child; apply child_ne_self).
  assert (S ≠ SD) as HSSD by apply child_ne_self.
  rewrite (write_succeeds _ _ p0), py_bind_Ok by done.
  rewrite (mkdir_succeeds _ PD), py_bind_Ok;
    [|exact (parent_child PD sub Hsf)|by rewrite lookup_insert_ne
     |rewrite lookup_insert_ne by (apply HP', within_refl);
      apply Hfresh, within_refl].
  rewrite (open_w_succeeds _ SD), py_bind_Ok;
    [|exact (parent_child SD "index.rst" eq_refl)|apply lookup_insert_eq|].
  2:{ rewrite !lookup_insert_ne by (done || by apply HP').
      by rewrite Hfresh. }
  rewrite (write_succeeds _ _ ""), py_bind_Ok by apply lookup_insert_eq.
  rewrite insert_insert_eq.
  eapply class_loop_succeeds; [done| |apply lookup_insert_eq|].
  - rewrite lookup_insert_ne by done. apply lookup_insert_eq.
  - intros c Hc Hq.
    assert (within SD (class_path pn sub c)) as Hw
      by (rewrite class_path_child; apply within_child).
    rewrite lookup_insert_ne
      by (apply not_eq_sym; by apply class_path_index_ne).
    rewrite lookup_insert_ne.
    + rewrite lookup_insert_ne by (by apply HP'). by rewrite Hfresh.
    + rewrite class_path_child. apply not_eq_sym, child_ne_self.
Qed.

Lemma subgroup_loop_succeeds pn (res : list (string * list string)) :
  NoDup res.*1 ->
  (forall x, x ∈ res -> slash_free x.1 = true /\ x.1 ≠ "index.rst") ->
  (forall sub classes c, (sub, classes) ∈ res -> c ∈ classes ->
                         Str.slice_to 3 c = "Qgs" -> renders pn sub c) ->
  forall fs p0,
    fs !! package_dir pn = Some Dir ->
    fs !! index_of (package_dir pn) = Some (File p0) ->
    (forall x p, x ∈ res -> within (subgroup_dir pn x.1) p -> fs !! p = None) ->
    exists fs',
      for_each (emit_subgroup substitute template_text pn) res fs = Ok fs'.
Proof.
  induction res as [|[sub classes] res IH]; intros Hnd Hkeys Hr fs p0 Hd Hp Hfresh.
  - by exists fs.
  - cbn [for_each]. apply NoDup_cons in Hnd as [Hsub Hnd].
    destruct (Hkeys (sub, classes) ltac:(left)) as [Hsf Hni].
    cbn [fst] in Hsf, Hni.
    assert (exists fs1,
               emit_subgroup substitute template_text pn (sub, classes) fs
               = Ok fs1) as [fs1 H1].
    { apply emit_subgroup_succeeds with p0; [done|done| |done|done|].
      - intros c Hc Hq. apply (Hr sub classes c); [left|done|done].
      - intros p Hw. apply (Hfresh (sub, classes) p); [left|done]. }
    rewrite H1, py_bind_Ok.
    apply emit_subgroup_effect with (p0 := p0) in H1 as (Hfr & Hp1 & _);
      [|done..].
    apply IH with (p0 +:+ index_line sub); [done| | | |done|].
    + intros x Hx. apply Hkeys. by right.
    + intros sub' classes' c Hin. apply Hr. by right.
    + rewrite Hfr; [done|apply not_eq_sym, child_ne_self|].
      rewrite subgroup_dir_child. apply within_child_self.
    + intros x p Hx Hw.
      destruct (Hkeys x ltac:(by right)) as [Hsfx Hnix].
      rewrite Hfr.
      * apply (Hfresh x); [by right|done].
      * by apply (index_not_within_sibling (package_dir pn) x.1).
      * intros Hw'.
        apply (siblings_disjoint (package_dir pn) sub x.1 p); [done..| |done|done].
        intros ->. apply Hsub. apply list_elem_of_fmap. by exists x.
Qed.

Lemma emit_package_succeeds pn listing fs r0 :
  slash_free pn = true -> pn ≠ "index.rst" ->
  (forall res sub classes c,
      extract_package_subgroups listing = Ok res ->
      (sub, classes) ∈ res -> c ∈ classes -> renders pn sub c) ->
  fs !! "api" = Some Dir ->
  fs !! "api/index.rst" = Some (File r0) ->
  (forall p, within (package_dir pn) p -> fs !! p = None) ->
  exists fs', emit_package substitute template_text (pn, listing) fs = Ok fs'.
Proof.
  intros Hsf Hni Hr Hapi HR Hfresh. unfold emit_package.
  pose proof (extract_eq listing) as Hres. rewrite Hres, py_bind_Ok.
  set (PD := package_dir pn) in *.
  set (P := index_of PD) in *.
  assert (forall p, within PD p -> p ≠ "api/index.rst") as HRn.
  { intros p Hp. by apply (index_not_within_sibling "api" pn). }
  assert (forall p, within PD p -> "api/index.rst" ≠ p) as HRn'.
  { intros p Hp H'. by apply (HRn p). }
  assert (P ≠ PD) as HPPD by apply child_ne_self.
  assert (within PD P) as HwP by apply within_child.
  rewrite (mkdir_succeeds _ "api"), py_bind_Ok;
    [|exact (parent_child "api" pn Hsf)|done|apply Hfresh, within_refl].
  rewrite (write_succeeds _ _ r0), py_bind_Ok
    by (rewrite lookup_insert_ne by (apply HRn, within_refl); done).
  rewrite (open_w_succeeds _ PD), py_bind_Ok;
    [|exact (parent_child PD "index.rst" eq_refl)| |].
  2:{ rewrite lookup_insert_ne by (apply HRn', within_refl).
      apply lookup_insert_eq. }
  2:{ rewrite !lookup_insert_ne by (done || by apply HRn').
      by rewrite Hfresh. }
  rewrite (write_succeeds _ _ ""), py_bind_Ok by apply lookup_insert_eq.
  rewrite insert_insert_eq.
  eapply subgroup_loop_succeeds.
  - fold (OD.keys (filed (promoted listing ++ ["other"]) listing)).
    rewrite filed_keys. apply keys_nodup.
  - intros [sub v] Hx. eapply filed_key_shape; [|done]. apply keys_shape.
  - intros sub classes c Hin Hc _. by eapply Hr.
  - rewrite lookup_insert_ne by done.
    rewrite lookup_insert_ne by (apply HRn', within_refl).
    apply lookup_insert_eq.
  - apply lookup_insert_eq.
  - intros [sub v] p Hx Hw. cbn [fst] in Hw.
    assert (within PD p) as Hwp.
    { eapply within_trans; [|done]. rewrite subgroup_dir_child.
      apply within_child. }
    assert (slash_free sub = true /\ sub ≠ "index.rst") as [? ?].
    { eapply filed_key_shape; [|done]. apply keys_shape. }
    rewrite lookup_insert_ne
      by (apply not_eq_sym;
          by apply (index_not_within_sibling PD sub)).
    rewrite lookup_insert_ne by (by apply HRn').
    rewrite lookup_insert_ne.
    + by apply Hfresh.
    + intros <-. rewrite subgroup_dir_child in Hw.
      by apply within_child_self in Hw.
Qed.

End Success.

Lemma within_package_under_api pn p :
  within (package_dir pn) p -> FS.under "api" p = true.
Proof.
  intros Hw.
  destruct (within_trans "api" (package_dir pn) p) as [->|Hu];
    [apply (within_child "api")|done| |done].
  rewrite package_dir_child in Hw. by apply within_child_self in Hw.
Qed.

Lemma package_loop_succeeds substitute template_text
    (l : list (string * list string)) :
  NoDup l.*1 ->
  (forall x, x ∈ l -> slash_free x.1 = true /\ x.1 ≠ "index.rst") ->
  (forall pn listing res sub classes c,
      (pn, listing) ∈ l ->
      extract_package_subgroups listing = Ok res ->
      (sub, classes) ∈ res -> c ∈ classes ->
      renders substitute template_text pn sub c) ->
  forall fs r0,
    fs !! "api" = Some Dir ->
    fs !! "api/index.rst" = Some (File r0) ->
    (forall x p, x ∈ l -> within (package_dir x.1) p -> fs !! p = None) ->
    exists fs' r,
      for_each (emit_package substitute template_text) l fs = Ok fs'
      /\ fs' !! "api/index.rst" = Some (File r).
Proof.
  induction l as [|[pn listing] l IH]; intros Hnd Hkeys Hr fs r0 Hapi HR Hfresh.
  - exists fs, r0. done.
  - cbn [for_each]. apply NoDup_cons in Hnd as [Hpn Hnd].
    destruct (Hkeys (pn, listing) ltac:(left)) as [Hsf Hni].
    cbn [fst] in Hsf, Hni.
    assert (exists fs1,
               emit_package substitute template_text (pn, listing) fs
               = Ok fs1) as [fs1 H1].
    { apply emit_package_succeeds with r0; [done|done| |done|done|].
      - intros res sub classes c. apply Hr. left.
      - intros p Hw. apply (Hfresh (pn, listing) p); [left|done]. }
    rewrite H1, py_bind_Ok.
    apply emit_package_effect with (r0 := r0) in H1 as (Hfr & HR1 & _);
      [|done..].
    apply IH with (r0 +:+ index_line pn); [done| | | |done|].
    + intros x Hx. apply Hkeys. by right.
    + intros pn' listing' res sub classes c Hin. apply Hr. by right.
    + rewrite Hfr; [done|done|].
      rewrite package_dir_child. apply within_child_self.
    + intros x p Hx Hw.
      destruct (Hkeys x ltac:(by right)) as [Hsfx Hnix].
      rewrite Hfr.
      * apply (Hfresh x); [by right|done].
      * by apply (index_not_within_sibling "api" x.1).
      * intros Hw'.
        apply (siblings_disjoint "api" pn x.1 p); [done..| |done|done].
        intros ->. apply Hpn. apply list_elem_of_fmap. by exists x.
Qed.

Lemma populate_succeeds dc dg da substitute template_text fs :
  fs !! "api" = Some Dir ->
  (forall p, FS.under "api" p = true -> fs !! p = None) ->
  fs !! "rst/qgis_pydoc_template.txt" = Some (File template_text) ->
  (forall pn listing res sub classes c,
      (pn, listing) ∈ packages dc dg da ->
      extract_package_subgroups listing = Ok res ->
      (sub, classes) ∈ res -> c ∈ classes ->
      renders substitute template_text pn sub c) ->
  exists fs', populate dc dg da substitute fs = Ok fs'.
Proof.
  intros Hapi Hfresh Htpl Hr. unfold populate.
  rewrite (open_w_succeeds _ "api"), py_bind_Ok;
    [|done|done|by rewrite Hfresh].
  rewrite (write_succeeds _ _ ""), py_bind_Ok by apply lookup_insert_eq.
  rewrite insert_insert_eq.
  assert (FS.read "rst/qgis_pydoc_template.txt"
            (<["api/index.rst" := File ("" +:+ document_header)]> fs)
          = Ok template_text) as ->.
  { unfold FS.read. by rewrite lookup_insert_ne, Htpl. }
  rewrite py_bind_Ok.
  destruct (package_loop_succeeds substitute template_text
              (packages dc dg da))
    with (fs := <["api/index.rst" := File ("" +:+ document_header)]> fs)
         (r0 := "" +:+ document_header)
    as (fs5 & r & -> & HR).
  - rewrite packages_names. by apply (bool_decide_unpack _).
  - apply packages_name_shape.
  - done.
  - by rewrite lookup_insert_ne.
  - apply lookup_insert_eq.
  - intros x p Hx Hw.
    destruct (packages_name_shape _ _ _ _ Hx) as [? ?].
    rewrite lookup_insert_ne
      by (apply not_eq_sym;
          by apply (index_not_within_sibling "api" x.1)).
    by apply Hfresh, (within_package_under_api x.1).
  - rewrite py_bind_Ok, (write_succeeds _ _ r) by done. eauto.
Qed.


